(** * Transactional e-mail helper (src/services/email.service.js)

    A shallow embedding of the three notification functions
    [sendVerifyEmailTo], [sendTripUpdateNotification] and
    [sendPendingRequestEmail], of the template loader and of the
    placeholder substitution they perform with
    [String.prototype.replace(/{{key}}/g, value)]. *)

From Stdlib Require Import String Ascii List Bool Arith NArith Lia.
From Stdlib Require Import DecimalString Permutation.
Import ListNotations.

Local Open Scope list_scope.
Local Open Scope string_scope.

(** ** JavaScript strings *)

(** [str.startsWith(p)], returning what follows the prefix. *)
Fixpoint strip_prefix (p s : string) : option string :=
  match p with
  | EmptyString => Some s
  | String a p' =>
      match s with
      | EmptyString => None
      | String b s' => if Ascii.eqb a b then strip_prefix p' s' else None
      end
  end.

(** The text matched by the regular expression [/{{key}}/g] of a key that
    is an identifier: the braces are literal characters there (no quantifier
    is formed, the key does not start with a digit), so the pattern matches
    exactly this string. *)
Definition placeholder (key : string) : string := "{{" ++ key ++ "}}".

(** GetSubstitution of ECMAScript for a pattern without capture groups: in
    the replacement text [$$] stands for a dollar sign, [$&] for the matched
    text, [$`] for the input before the match and [$'] for the input after
    it; any other dollar sign is kept as it is. *)
Fixpoint getSubstitution (matched before after repl : string) : string :=
  match repl with
  | EmptyString => EmptyString
  | String c r =>
      if Ascii.eqb c "$" then
        match r with
        | EmptyString => String c EmptyString
        | String d r' =>
            if Ascii.eqb d "$" then
              String "$" (getSubstitution matched before after r')
            else if Ascii.eqb d "&" then
              matched ++ getSubstitution matched before after r'
            else if Ascii.eqb d "`" then
              before ++ getSubstitution matched before after r'
            else if Ascii.eqb d "'" then
              after ++ getSubstitution matched before after r'
            else String c (getSubstitution matched before after r)
        end
      else String c (getSubstitution matched before after r)
  end.

(** The global replacement loop: scan [s] from the left, [before] being the
    input already passed; at each match of [tok] emit the expanded
    replacement and go on after the match, otherwise copy one character.
    [fuel] bounds the number of steps; the length of [s] is enough. *)
Fixpoint replace_from (fuel : nat) (tok repl before s : string) : string :=
  match fuel with
  | O => s
  | S fuel' =>
      match s with
      | EmptyString => EmptyString
      | String c s' =>
          match strip_prefix tok s with
          | Some after =>
              getSubstitution tok before after repl
              ++ replace_from fuel' tok repl (before ++ tok) after
          | None =>
              String c (replace_from fuel' tok repl (before ++ String c "") s')
          end
      end
  end.

(** The loop on the whole of what is left of the input. *)
Definition scan (tok repl before s : string) : string :=
  replace_from (String.length s) tok repl before s.

(** [s.replace(/{{key}}/g, value)] *)
Definition str_replace (key value s : string) : string :=
  scan (placeholder key) value "" s.

(** Method chaining: [s |> str_replace k1 v1 |> str_replace k2 v2] is
    [s.replace(/{{k1}}/g, v1).replace(/{{k2}}/g, v2)]. *)
Notation "x |> f" := (f x) (at level 69, left associativity, only parsing).

(** A chain [tpl.replace(/{{k1}}/g, v1).replace(/{{k2}}/g, v2)...], the
    pairs in the order of the calls. *)
Definition render (vars : list (string * string)) (tpl : string) : string :=
  fold_left (fun acc kv => str_replace (fst kv) (snd kv) acc) vars tpl.

(** [a || b] on a string that may be [undefined]: the empty string is falsy. *)
Definition or_else (a : option string) (b : string) : string :=
  match a with
  | Some EmptyString | None => b
  | Some s => s
  end.

(** A value interpolated in a template literal. *)
Definition interpolate (a : option string) : string :=
  match a with
  | Some s => s
  | None => "undefined"
  end.

Definition N_to_string (n : N) : string := NilZero.string_of_uint (N.to_uint n).

Definition nat_to_string (n : nat) : string := NilZero.string_of_uint (Nat.to_uint n).

(** ** Records read and produced *)

(** Column values of the date columns, as the data layer hands them over. *)
Definition date : Type := string.

Module User.
Record t : Type := mk { id_user : N; name : string; email : string }.
End User.

Module Trip.
Record t : Type := mk {
  id_trip : N;
  id_creator : N;
  title : string;
  start_date : date;
  end_date : date
}.
End Trip.

Module Participation.
Record t : Type := mk {
  id_participation : N;
  id_trip : N;
  id_user : N;
  message : option string
}.
End Participation.

Module Mail.
Record t : Type := mk {
  from : option string;
  to : string;
  subject : string;
  html : string
}.
End Mail.

Module Stats.
Record t : Type := mk { sent : nat; failed : nat; total : nat }.
End Stats.

(** A thrown value: an [Error] with its message. *)
Record Error : Type := mkError { message : string; stack : string }.

(** How a call completes: with a value, or by throwing (for a promise:
    fulfilled, or rejected). *)
Inductive Completion (A : Type) : Type :=
| Normal (a : A)
| Throw (e : Error).
Arguments Normal {A} a.
Arguments Throw {A} e.

(** The state a promise settles in. *)
Inductive Settled : Type :=
| fulfilled (value : string)
| rejected (reason : Error).

(** The payload of a signed token. *)
Inductive Payload : Type :=
| VerifyPayload (userId : N)
| ActionPayload (id_participation : N) (action : string).

Inductive Level : Type := Level_log | Level_warn | Level_error.

(** What a call does to the outside world, in the order it happens. *)
Inductive Event : Type :=
| EvSendMail (m : Mail.t)
| EvSign (payload : Payload) (expiresIn : string)
| EvConsole (level : Level) (args : list string).

(** ** The environment of the module *)

(** The object [nodemailer.createTransport] returns: [deliver n m] is how
    the promise of the dispatch of [m] settles when [n] dispatches were
    submitted before it. *)
Record Transporter : Type := mkTransporter { deliver : nat -> Mail.t -> Settled }.

(** [process.env], the module-level [transporter] ([None] when it is
    falsy), the file system, [jwt.sign], [formatDate] of
    utils/date.utils and the two model accessors. [formatDate] and the
    accessors are not part of this file: they are taken as they are given,
    and each may throw. *)
Record Env : Type := mkEnv {
  GMAIL_USER : option string;
  SECRET_KEY : option string;
  API_BASE_URL : option string;
  FRONTEND_URL : option string;
  transporter : option Transporter;
  readFile : string -> Completion string;
  sign : Payload -> option string -> string -> Completion string;
  formatDate : date -> Completion string;
  selectById : N -> Completion (option User.t);
  tripsById : N -> Completion (option Trip.t)
}.

(** ** Asynchronous computations

    An [async] body is run to completion against the trace of the events
    that happened so far; it extends the trace and completes normally or by
    throwing (a rejected promise, for the caller). *)
Definition Async (A : Type) : Type := list Event -> list Event * Completion A.

Definition ret {A : Type} (a : A) : Async A := fun tr => (tr, Normal a).

Definition throw {A : Type} (e : Error) : Async A := fun tr => (tr, Throw e).

Definition bind {A B : Type} (c : Async A) (k : A -> Async B) : Async B :=
  fun tr =>
    match c tr with
    | (tr', Normal a) => k a tr'
    | (tr', Throw e) => (tr', Throw e)
    end.

Notation "x <- c ;; k" := (bind c (fun x => k))
  (at level 61, c at next level, right associativity).
Notation "c ;;; k" := (bind c (fun _ => k))
  (at level 61, right associativity).

(** [try { body } catch (error) { handler }] *)
Definition try_catch {A : Type} (body : Async A) (handler : Error -> Async A)
  : Async A :=
  fun tr =>
    match body tr with
    | (tr', Normal a) => (tr', Normal a)
    | (tr', Throw e) => handler e tr'
    end.

Definition emit (e : Event) : Async unit := fun tr => ((tr ++ [e])%list, Normal tt).

(** A call of a function of the environment. *)
Definition call {A : Type} (c : Completion A) : Async A := fun tr => (tr, c).

Definition console (level : Level) (args : list string) : Async unit :=
  emit (EvConsole level args).

(** The mails handed to [transporter.sendMail] so far. *)
Fixpoint dispatches (tr : list Event) : list Mail.t :=
  match tr with
  | [] => []
  | EvSendMail m :: tr' => m :: dispatches tr'
  | _ :: tr' => dispatches tr'
  end.

(** The [jwt.sign] calls so far: payload and [expiresIn]. *)
Fixpoint signatures (tr : list Event) : list (Payload * string) :=
  match tr with
  | [] => []
  | EvSign p d :: tr' => (p, d) :: signatures tr'
  | _ :: tr' => signatures tr'
  end.

(** [transporter.sendMail(mail)] without a callback: the dispatch is
    submitted and a promise is returned. *)
Definition sendMail (t : Transporter) (mail : Mail.t) : Async Settled :=
  fun tr =>
    ((tr ++ [EvSendMail mail])%list, Normal (deliver t (length (dispatches tr)) mail)).

(** [await promise] *)
Definition await (promise : Settled) : Async string :=
  match promise with
  | fulfilled value => ret value
  | rejected reason => throw reason
  end.

(** [jwt.sign(payload, process.env.SECRET_KEY, { expiresIn })] *)
Definition jwt_sign (env : Env) (payload : Payload) (expiresIn : string)
  : Async string :=
  emit (EvSign payload expiresIn) ;;;
  call (sign env payload (SECRET_KEY env) expiresIn).

(** [array.map(callback)] with a callback that has effects and may throw. *)
Fixpoint mapM {A B : Type} (f : A -> Async B) (l : list A) : Async (list B) :=
  match l with
  | [] => ret []
  | a :: l' => b <- f a ;; bs <- mapM f l' ;; ret (b :: bs)
  end.

(** [await Promise.allSettled(promises)]: waits for every promise and never
    throws; the results are in the order of the promises. *)
Definition allSettled (promises : list Settled) : Async (list Settled) :=
  ret promises.

Definition is_fulfilled (r : Settled) : bool :=
  match r with fulfilled _ => true | rejected _ => false end.

Definition is_rejected (r : Settled) : bool :=
  match r with fulfilled _ => false | rejected _ => true end.

(** ** The module *)

(** [path.join(__dirname, `../templates/${templateName}`)], relative to
    the directory of the module. *)
Definition templatePath (templateName : string) : string :=
  "../templates/" ++ templateName.

Definition loadTemplate (env : Env) (templateName : string) : Async string :=
  call (readFile env (templatePath templateName)).

(** 1. [sendVerifyEmailTo(userData)] *)
Definition sendVerifyEmailTo (env : Env) (userData : User.t) : Async unit :=
  match transporter env with
  | None => ret tt
  | Some transporter =>
      try_catch
        (htmlTemplate <- loadTemplate env "verify.html" ;;
         token <- jwt_sign env (VerifyPayload (User.id_user userData)) "1d" ;;
         let apiBaseUrl := or_else (API_BASE_URL env) "http://localhost:3000" in
         let verificationLink := apiBaseUrl ++ "/api/auth/verify?token=" ++ token in
         let html :=
           htmlTemplate |> str_replace "verificationLink" verificationLink in
         promise <- sendMail transporter
           {| Mail.from := GMAIL_USER env;
              Mail.to := User.email userData;
              Mail.subject := "Verificación de email - Viajes Compartidos";
              Mail.html := html |} ;;
         _ <- await promise ;;
         ret tt)
        (fun error =>
           console Level_error ["❌ Error sending verification email:"; message error])
  end.

(** The body of the callback of [recipientsToNotify.map]. *)
Definition notifyParticipant (env : Env) (transporter : Transporter)
    (htmlTemplate tripDetailsUrl : string) (oldTrip updatedTrip : Trip.t)
    (participant : User.t) : Async Settled :=
  newStartDate <- call (formatDate env (Trip.start_date updatedTrip)) ;;
  newEndDate <- call (formatDate env (Trip.end_date updatedTrip)) ;;
  oldStartDate <- call (formatDate env (Trip.start_date oldTrip)) ;;
  oldEndDate <- call (formatDate env (Trip.end_date oldTrip)) ;;
  let html :=
    htmlTemplate
    |> str_replace "participantName" (User.name participant)
    |> str_replace "tripTitle" (Trip.title updatedTrip)
    |> str_replace "newStartDate" newStartDate
    |> str_replace "newEndDate" newEndDate
    |> str_replace "oldStartDate" oldStartDate
    |> str_replace "oldEndDate" oldEndDate
    |> str_replace "tripDetailsUrl" tripDetailsUrl in
  sendMail transporter
    {| Mail.from := Some ("Viajes Compartidos <" ++ interpolate (GMAIL_USER env) ++ ">");
       Mail.to := User.email participant;
       Mail.subject := "⚠️ Cambio de fechas: " ++ Trip.title updatedTrip;
       Mail.html := html |}.

(** 2. [sendTripUpdateNotification(participants, oldTrip, updatedTrip,
    creatorEmail)]; [None] is [undefined]. *)
Definition sendTripUpdateNotification (env : Env) (participants : list User.t)
    (oldTrip updatedTrip : Trip.t) (creatorEmail : string)
  : Async (option Stats.t) :=
  let unavailable : Async (option Stats.t) :=
    console Level_warn
      ["⚠️ No se pueden enviar emails: transporter no disponible o sin participantes"] ;;;
    ret None in
  match transporter env with
  | None => unavailable
  | Some transporter =>
      if (length participants =? 0)%nat then unavailable
      else
        try_catch
          (htmlTemplate <- loadTemplate env "datesModified.html" ;;
           let frontendUrl :=
             or_else (FRONTEND_URL env) "https://app-viajes.netlify.app" in
           let tripDetailsUrl :=
             frontendUrl ++ "/trips/" ++ N_to_string (Trip.id_trip updatedTrip) in
           let recipientsToNotify :=
             filter (fun p => negb (User.email p =? creatorEmail)) participants in
           if (length recipientsToNotify =? 0)%nat then
             console Level_log
               ["ℹ️ No hay participantes a notificar (solo el creador)"] ;;;
             ret None
           else
             emailPromises <-
               mapM (notifyParticipant env transporter htmlTemplate
                       tripDetailsUrl oldTrip updatedTrip)
                    recipientsToNotify ;;
             results <- allSettled emailPromises ;;
             let successful := length (filter is_fulfilled results) in
             let failed := filter is_rejected results in
             (if (0 <? length failed)%nat then
                console Level_error
                  (("❌ " ++ nat_to_string (length failed) ++ " emails fallaron:")
                   :: map (fun f =>
                             match f with
                             | rejected reason =>
                                 or_else (Some (message reason)) "Error desconocido"
                             | fulfilled _ => "Error desconocido"
                             end) failed)
              else ret tt) ;;;
             console Level_log
               ["✅ Emails de notificación: " ++ nat_to_string successful ++ "/"
                ++ nat_to_string (length results) ++ " enviados correctamente"] ;;;
             ret (Some {| Stats.sent := successful;
                          Stats.failed := length failed;
                          Stats.total := length results |}))
          (fun error =>
             console Level_error
               ["❌ Error crítico en sendTripUpdateNotification:"; message error] ;;;
             console Level_error ["Stack:"; stack error] ;;;
             ret None)
  end.

(** [message || 'Sin mensaje'] *)
Definition userMessage (message : option string) : string :=
  or_else message "Sin mensaje".

(** 3. [sendPendingRequestEmail(newParticipation)]. The [try] block yields
    [undefined] ([None]) or the promise of the dispatch, which it returns
    without awaiting it: the promise settles outside the [try]. *)
Definition sendPendingRequestEmail (env : Env) (newParticipation : Participation.t)
  : Async (option string) :=
  match transporter env with
  | None => ret None
  | Some transporter =>
      returned <-
        try_catch
          (let id_participation := Participation.id_participation newParticipation in
           let id_trip := Participation.id_trip newParticipation in
           let id_user := Participation.id_user newParticipation in
           let message := Participation.message newParticipation in
           participant <- call (selectById env id_user) ;;
           trip <- call (tripsById env id_trip) ;;
           match participant, trip with
           | Some participant, Some trip =>
               creator <- call (selectById env (Trip.id_creator trip)) ;;
               match creator with
               | None => ret None
               | Some creator =>
                   html <- loadTemplate env "pendingRequest.html" ;;
                   let frontendUrl :=
                     or_else (FRONTEND_URL env) "http://localhost:3000" in
                   let apiBaseUrl :=
                     or_else (API_BASE_URL env) "http://localhost:3000" in
                   acceptToken <-
                     jwt_sign env (ActionPayload id_participation "accepted") "7d" ;;
                   rejectToken <-
                     jwt_sign env (ActionPayload id_participation "rejected") "7d" ;;
                   startDate <- call (formatDate env (Trip.start_date trip)) ;;
                   endDate <- call (formatDate env (Trip.end_date trip)) ;;
                   let html :=
                     html
                     |> str_replace "creatorName" (User.name creator)
                     |> str_replace "userName" (User.name participant)
                     |> str_replace "tripTitle" (Trip.title trip)
                     |> str_replace "startDate" startDate
                     |> str_replace "endDate" endDate
                     |> str_replace "userMessage" (userMessage message)
                     |> str_replace "appUrl" (frontendUrl ++ "/requests")
                     |> str_replace "accepted"
                          (apiBaseUrl ++ "/api/participants/"
                           ++ N_to_string id_participation ++ "/action?token="
                           ++ acceptToken)
                     |> str_replace "rejected"
                          (apiBaseUrl ++ "/api/participants/"
                           ++ N_to_string id_participation ++ "/action?token="
                           ++ rejectToken) in
                   promise <- sendMail transporter
                     {| Mail.from := GMAIL_USER env;
                        Mail.to := User.email creator;
                        Mail.subject :=
                          "📨 " ++ User.name participant ++ " solicita unirse a tu viaje";
                        Mail.html := html |} ;;
                   ret (Some promise)
               end
           | _, _ =>
               console Level_error ["Missing data for email"] ;;;
               ret None
           end)
          (fun error =>
             console Level_error
               ["❌ Error sending pending request email:"; message error] ;;;
             throw error) ;;
      match returned with
      | None => ret None
      | Some promise => info <- await promise ;; ret (Some info)
      end
  end.

(** ** Templates as text between placeholders

    What the specification says rendering does, on a template given as its
    pieces: literal text and [{{key}}] tokens. *)
Inductive Segment : Type :=
| Lit (text : string)
| Tok (key : string).

(** The template text of a list of pieces. *)
Fixpoint flatten (segs : list Segment) : string :=
  match segs with
  | [] => ""
  | Lit text :: rest => text ++ flatten rest
  | Tok key :: rest => placeholder key ++ flatten rest
  end.

(** The value of a key in a mapping: its first entry. *)
Fixpoint lookup (key : string) (vars : list (string * string)) : option string :=
  match vars with
  | [] => None
  | (k, v) :: vars' => if k =? key then Some v else lookup key vars'
  end.

(** A token with an entry becomes its value, a token without one and
    literal text stay as they are. *)
Definition substitute (vars : list (string * string)) (seg : Segment) : Segment :=
  match seg with
  | Lit text => Lit text
  | Tok key =>
      match lookup key vars with
      | Some value => Lit value
      | None => Tok key
      end
  end.

Definition render_spec (vars : list (string * string)) (segs : list Segment)
  : string :=
  flatten (map (substitute vars) segs).

Fixpoint no_char (c : ascii) (s : string) : bool :=
  match s with
  | EmptyString => true
  | String d s' => negb (Ascii.eqb d c) && no_char c s'
  end.

(** Every opening brace of [s] is followed, in [s], by a character that is
    not an opening brace: [s] holds no [{{] and does not end in [{]. *)
Fixpoint single_braces (s : string) : bool :=
  match s with
  | EmptyString => true
  | String c s' =>
      (if Ascii.eqb c "{" then
         match s' with
         | EmptyString => false
         | String d _ => negb (Ascii.eqb d "{")
         end
       else true)
      && single_braces s'
  end.

Definition is_letter (c : ascii) : bool :=
  let n := nat_of_ascii c in
  ((65 <=? n) && (n <=? 90) || (97 <=? n) && (n <=? 122) || (n =? 95))%nat.

Definition is_digit (c : ascii) : bool :=
  let n := nat_of_ascii c in ((48 <=? n) && (n <=? 57))%nat.

Fixpoint word_chars (s : string) : bool :=
  match s with
  | EmptyString => true
  | String c s' => (is_letter c || is_digit c) && word_chars s'
  end.

(** A placeholder name: an identifier, as the keys of the module are. The
    regular expression [/{{key}}/g] of such a key has no quantifier and no
    other operator: it matches the text [{{key}}] and nothing else. *)
Definition key_ok (key : string) : bool :=
  match key with
  | EmptyString => false
  | String c key' => is_letter c && word_chars key'
  end.

Definition value_ok (value : string) : bool :=
  no_char "$" value && single_braces value.

Definition segment_ok (seg : Segment) : bool :=
  match seg with
  | Lit text => single_braces text
  | Tok key => key_ok key
  end.

Definition vars_ok (vars : list (string * string)) : bool :=
  forallb (fun kv => key_ok (fst kv) && value_ok (snd kv)) vars.

(** ** What the functions hand to the transporter *)

(** The mapping of the [replace] chain of the "dates modified" mail, in the
    order of the calls. *)
Definition tripUpdateVars (participantName tripTitle newStartDate newEndDate
    oldStartDate oldEndDate tripDetailsUrl : string) : list (string * string) :=
  [("participantName", participantName);
   ("tripTitle", tripTitle);
   ("newStartDate", newStartDate);
   ("newEndDate", newEndDate);
   ("oldStartDate", oldStartDate);
   ("oldEndDate", oldEndDate);
   ("tripDetailsUrl", tripDetailsUrl)].

(** The mail [sendTripUpdateNotification] builds for one participant, the
    dates already formatted. *)
Definition tripUpdateMail (env : Env) (htmlTemplate : string)
    (updatedTrip : Trip.t)
    (newStartDate newEndDate oldStartDate oldEndDate : string)
    (participant : User.t) : Mail.t :=
  {| Mail.from := Some ("Viajes Compartidos <" ++ interpolate (GMAIL_USER env) ++ ">");
     Mail.to := User.email participant;
     Mail.subject := "⚠️ Cambio de fechas: " ++ Trip.title updatedTrip;
     Mail.html :=
       render
         (tripUpdateVars (User.name participant) (Trip.title updatedTrip)
            newStartDate newEndDate oldStartDate oldEndDate
            (or_else (FRONTEND_URL env) "https://app-viajes.netlify.app"
             ++ "/trips/" ++ N_to_string (Trip.id_trip updatedTrip)))
         htmlTemplate |}.

(** How the promises of the mails [mails] settle when they are submitted
    one after the other, [n] dispatches having been submitted before. *)
Fixpoint settle_all (t : Transporter) (n : nat) (mails : list Mail.t)
  : list Settled :=
  match mails with
  | [] => []
  | m :: mails' => deliver t n m :: settle_all t (S n) mails'
  end.

(** The verification link and mail of [sendVerifyEmailTo]. *)
Definition verificationLink (env : Env) (token : string) : string :=
  or_else (API_BASE_URL env) "http://localhost:3000"
  ++ "/api/auth/verify?token=" ++ token.

Definition verifyMail (env : Env) (htmlTemplate token : string)
    (userData : User.t) : Mail.t :=
  {| Mail.from := GMAIL_USER env;
     Mail.to := User.email userData;
     Mail.subject := "Verificación de email - Viajes Compartidos";
     Mail.html :=
       render [("verificationLink", verificationLink env token)] htmlTemplate |}.

(** An action link of [sendPendingRequestEmail]. *)
Definition actionLink (env : Env) (id_participation : N) (token : string)
  : string :=
  or_else (API_BASE_URL env) "http://localhost:3000" ++ "/api/participants/"
  ++ N_to_string id_participation ++ "/action?token=" ++ token.

(** The mapping of the [replace] chain of the "pending request" mail. *)
Definition pendingRequestVars (env : Env) (newParticipation : Participation.t)
    (participant : User.t) (trip : Trip.t) (creator : User.t)
    (startDate endDate acceptToken rejectToken : string)
  : list (string * string) :=
  [("creatorName", User.name creator);
   ("userName", User.name participant);
   ("tripTitle", Trip.title trip);
   ("startDate", startDate);
   ("endDate", endDate);
   ("userMessage", userMessage (Participation.message newParticipation));
   ("appUrl", or_else (FRONTEND_URL env) "http://localhost:3000" ++ "/requests");
   ("accepted",
    actionLink env (Participation.id_participation newParticipation) acceptToken);
   ("rejected",
    actionLink env (Participation.id_participation newParticipation) rejectToken)].

Definition pendingRequestMail (env : Env) (htmlTemplate : string)
    (newParticipation : Participation.t)
    (participant : User.t) (trip : Trip.t) (creator : User.t)
    (startDate endDate acceptToken rejectToken : string) : Mail.t :=
  {| Mail.from := GMAIL_USER env;
     Mail.to := User.email creator;
     Mail.subject := "📨 " ++ User.name participant ++ " solicita unirse a tu viaje";
     Mail.html :=
       render
         (pendingRequestVars env newParticipation participant trip creator
            startDate endDate acceptToken rejectToken)
         htmlTemplate |}.

(** The three lookups of [sendPendingRequestEmail] find their records. *)
Definition resolved (env : Env) (newParticipation : Participation.t)
    (participant : User.t) (trip : Trip.t) (creator : User.t) : Prop :=
  selectById env (Participation.id_user newParticipation) = Normal (Some participant)
  /\ tripsById env (Participation.id_trip newParticipation) = Normal (Some trip)
  /\ selectById env (Trip.id_creator trip) = Normal (Some creator).

(** An internal step of [sendPendingRequestEmail] throws [e], the steps
    before it having completed: the lookups, the template load, the two
    signatures, the two date formats, and the dispatch ([n] dispatches were
    submitted before the call). *)
Inductive pending_step_throws (env : Env) (t : Transporter) (n : nat)
    (req : Participation.t) (e : Error) : Prop :=
| user_lookup_throws :
    selectById env (Participation.id_user req) = Throw e ->
    pending_step_throws env t n req e
| trip_lookup_throws participant :
    selectById env (Participation.id_user req) = Normal participant ->
    tripsById env (Participation.id_trip req) = Throw e ->
    pending_step_throws env t n req e
| creator_lookup_throws participant trip :
    selectById env (Participation.id_user req) = Normal (Some participant) ->
    tripsById env (Participation.id_trip req) = Normal (Some trip) ->
    selectById env (Trip.id_creator trip) = Throw e ->
    pending_step_throws env t n req e
| template_load_throws participant trip creator :
    resolved env req participant trip creator ->
    readFile env (templatePath "pendingRequest.html") = Throw e ->
    pending_step_throws env t n req e
| accept_sign_throws participant trip creator html :
    resolved env req participant trip creator ->
    readFile env (templatePath "pendingRequest.html") = Normal html ->
    sign env (ActionPayload (Participation.id_participation req) "accepted")
      (SECRET_KEY env) "7d" = Throw e ->
    pending_step_throws env t n req e
| reject_sign_throws participant trip creator html acceptToken :
    resolved env req participant trip creator ->
    readFile env (templatePath "pendingRequest.html") = Normal html ->
    sign env (ActionPayload (Participation.id_participation req) "accepted")
      (SECRET_KEY env) "7d" = Normal acceptToken ->
    sign env (ActionPayload (Participation.id_participation req) "rejected")
      (SECRET_KEY env) "7d" = Throw e ->
    pending_step_throws env t n req e
| start_date_throws participant trip creator html acceptToken rejectToken :
    resolved env req participant trip creator ->
    readFile env (templatePath "pendingRequest.html") = Normal html ->
    sign env (ActionPayload (Participation.id_participation req) "accepted")
      (SECRET_KEY env) "7d" = Normal acceptToken ->
    sign env (ActionPayload (Participation.id_participation req) "rejected")
      (SECRET_KEY env) "7d" = Normal rejectToken ->
    formatDate env (Trip.start_date trip) = Throw e ->
    pending_step_throws env t n req e
| end_date_throws participant trip creator html acceptToken rejectToken startDate :
    resolved env req participant trip creator ->
    readFile env (templatePath "pendingRequest.html") = Normal html ->
    sign env (ActionPayload (Participation.id_participation req) "accepted")
      (SECRET_KEY env) "7d" = Normal acceptToken ->
    sign env (ActionPayload (Participation.id_participation req) "rejected")
      (SECRET_KEY env) "7d" = Normal rejectToken ->
    formatDate env (Trip.start_date trip) = Normal startDate ->
    formatDate env (Trip.end_date trip) = Throw e ->
    pending_step_throws env t n req e
| dispatch_rejected participant trip creator html acceptToken rejectToken
    startDate endDate :
    resolved env req participant trip creator ->
    readFile env (templatePath "pendingRequest.html") = Normal html ->
    sign env (ActionPayload (Participation.id_participation req) "accepted")
      (SECRET_KEY env) "7d" = Normal acceptToken ->
    sign env (ActionPayload (Participation.id_participation req) "rejected")
      (SECRET_KEY env) "7d" = Normal rejectToken ->
    formatDate env (Trip.start_date trip) = Normal startDate ->
    formatDate env (Trip.end_date trip) = Normal endDate ->
    deliver t n
      (pendingRequestMail env html req participant trip creator
         startDate endDate acceptToken rejectToken) = rejected e ->
    pending_step_throws env t n req e.

(** A lookup of [sendPendingRequestEmail] returns nothing, every lookup
    made before the function gives up having returned. *)
Definition lookup_returns_nothing (env : Env) (req : Participation.t) : Prop :=
  (exists participant trip,
      selectById env (Participation.id_user req) = Normal participant
      /\ tripsById env (Participation.id_trip req) = Normal trip
      /\ (participant = None \/ trip = None))
  \/ (exists participant trip,
         selectById env (Participation.id_user req) = Normal (Some participant)
         /\ tripsById env (Participation.id_trip req) = Normal (Some trip)
         /\ selectById env (Trip.id_creator trip) = Normal None).

(** One of the lookups of [sendPendingRequestEmail] returns nothing,
    whatever the others do. *)
Definition lookup_finds_nothing (env : Env) (req : Participation.t) : Prop :=
  selectById env (Participation.id_user req) = Normal None
  \/ tripsById env (Participation.id_trip req) = Normal None
  \/ (exists participant trip,
         selectById env (Participation.id_user req) = Normal (Some participant)
         /\ tripsById env (Participation.id_trip req) = Normal (Some trip)
         /\ selectById env (Trip.id_creator trip) = Normal None).


(** ** A small deployment to run the functions on *)

Module Sample.

Definition carla : User.t := User.mk 1 "Carla" "carla@example.com".
Definition ana : User.t := User.mk 2 "Ana" "ana@example.com".
Definition bea : User.t := User.mk 3 "Bea" "bea@example.com".

(** Two participants whose address is the creator's up to letter case and
    to a leading blank. *)
Definition carla_upper : User.t := User.mk 4 "Carla" "Carla@example.com".
Definition carla_blank : User.t := User.mk 5 "Carla" " carla@example.com".

Definition roma_old : Trip.t := Trip.mk 7 1 "Roma" "2024-05-01" "2024-05-08".
Definition roma_new : Trip.t := Trip.mk 7 1 "Roma" "2024-06-01" "2024-06-08".

Definition smtp_down : Error := mkError "smtp down" "Error: smtp down".
Definition db_down : Error := mkError "connection lost" "Error: connection lost".
Definition enoent : Error := mkError "ENOENT: no such file" "Error: ENOENT".
Definition no_secret : Error :=
  mkError "secretOrPrivateKey must have a value" "Error: secretOrPrivateKey".

(** Delivers every mail but those to Bea. *)
Definition smtp : Transporter :=
  mkTransporter
    (fun _ mail =>
       if Mail.to mail =? "bea@example.com" then rejected smtp_down
       else fulfilled "250 OK").

(** Delivers every mail. *)
Definition reliable : Transporter := mkTransporter (fun _ _ => fulfilled "250 OK").

Definition datesModified : string :=
  "<p>Hola {{participantName}}: {{tripTitle}} pasa de {{oldStartDate}}-{{oldEndDate}} a {{newStartDate}}-{{newEndDate}}. {{tripDetailsUrl}}</p>".

Definition verify : string := "<a href='{{verificationLink}}'>Verificar</a>".

Definition pendingRequest : string :=
  "<p>{{creatorName}}: {{userName}} pide unirse a {{tripTitle}} ({{startDate}}-{{endDate}}): {{userMessage}} {{accepted}} {{rejected}} {{appUrl}}</p>".

Definition files (path : string) : Completion string :=
  if path =? "../templates/datesModified.html" then Normal datesModified
  else if path =? "../templates/verify.html" then Normal verify
  else if path =? "../templates/pendingRequest.html" then Normal pendingRequest
  else Throw enoent.

Definition signer (payload : Payload) (secret : option string) (expiresIn : string)
  : Completion string :=
  match secret with
  | None => Throw no_secret
  | Some key =>
      Normal
        (match payload with
         | VerifyPayload userId => "verify-" ++ N_to_string userId
         | ActionPayload id action => action ++ "-" ++ N_to_string id
         end ++ "." ++ expiresIn ++ "." ++ key)
  end.

Definition format (d : date) : Completion string := Normal ("[" ++ d ++ "]").

Definition users (id : N) : Completion (option User.t) :=
  if (id =? 1)%N then Normal (Some carla)
  else if (id =? 2)%N then Normal (Some ana)
  else if (id =? 3)%N then Normal (Some bea)
  else Normal None.

Definition trips (id : N) : Completion (option Trip.t) :=
  if (id =? 7)%N then Normal (Some roma_new) else Normal None.

Definition env_with (t : option Transporter)
    (trips_table : N -> Completion (option Trip.t)) : Env :=
  {| GMAIL_USER := Some "viajes@gmail.com";
     SECRET_KEY := Some "s3cr3t";
     API_BASE_URL := Some "https://api.example.com";
     FRONTEND_URL := None;
     transporter := t;
     readFile := files;
     sign := signer;
     formatDate := format;
     selectById := users;
     tripsById := trips_table |}.

Definition env : Env := env_with (Some smtp) trips.

(** The same deployment when every mail is delivered. *)
Definition env_reliable : Env := env_with (Some reliable) trips.

(** The same deployment with a falsy transporter. *)
Definition env_unconfigured : Env := env_with None trips.

(** The same deployment while the trips table cannot be read. *)
Definition env_db_down : Env := env_with (Some smtp) (fun _ => Throw db_down).

(** Ana asks to join the trip to Roma. *)
Definition request : Participation.t := Participation.mk 5 7 2 None.

(** A request of a user that is not in the users table. *)
Definition request_unknown_user : Participation.t :=
  Participation.mk 6 7 99 (Some "hola").

End Sample.

(** ** Further notions on templates and traces *)

(** [s.includes(tok)]: the text [tok] starts somewhere in [s]. *)
Fixpoint occurs (tok s : string) : bool :=
  match strip_prefix tok s with
  | Some _ => true
  | None =>
      match s with
      | EmptyString => false
      | String _ s' => occurs tok s'
      end
  end.

(** No dollar sign of [v] starts a replacement pattern: none is followed by
    a dollar sign, an ampersand, a backquote or a quote. *)
Fixpoint dollars_safe (v : string) : bool :=
  match v with
  | EmptyString => true
  | String c r =>
      (if Ascii.eqb c "$" then
         match r with
         | EmptyString => true
         | String d _ =>
             negb (Ascii.eqb d "$" || Ascii.eqb d "&" || Ascii.eqb d "`"
                   || Ascii.eqb d "'")
         end
       else true)
      && dollars_safe r
  end.

Definition value_safe (value : string) : bool :=
  dollars_safe value && single_braces value.

Definition vars_safe (vars : list (string * string)) : bool :=
  forallb (fun kv => key_ok (fst kv) && value_safe (snd kv)) vars.

(** What was written to the console so far. *)
Fixpoint consoles (tr : list Event) : list (Level * list string) :=
  match tr with
  | [] => []
  | EvConsole level args :: tr' => (level, args) :: consoles tr'
  | _ :: tr' => consoles tr'
  end.

(** One of the four [formatDate] calls of the callback of
    [sendTripUpdateNotification] throws [e], the calls before it having
    returned. *)
Definition date_format_throws (env : Env) (oldTrip updatedTrip : Trip.t)
    (e : Error) : Prop :=
  formatDate env (Trip.start_date updatedTrip) = Throw e
  \/ (exists a,
         formatDate env (Trip.start_date updatedTrip) = Normal a
         /\ formatDate env (Trip.end_date updatedTrip) = Throw e)
  \/ (exists a b,
         formatDate env (Trip.start_date updatedTrip) = Normal a
         /\ formatDate env (Trip.end_date updatedTrip) = Normal b
         /\ formatDate env (Trip.start_date oldTrip) = Throw e)
  \/ (exists a b c,
         formatDate env (Trip.start_date updatedTrip) = Normal a
         /\ formatDate env (Trip.end_date updatedTrip) = Normal b
         /\ formatDate env (Trip.start_date oldTrip) = Normal c
         /\ formatDate env (Trip.end_date oldTrip) = Throw e).

(** The two entries the [catch] block of [sendTripUpdateNotification]
    writes for the error [e]. *)
Definition critical_error_log (e : Error) : list (Level * list string) :=
  [(Level_error, ["❌ Error crítico en sendTripUpdateNotification:"; message e]);
   (Level_error, ["Stack:"; stack e])].

(** ** Deployments in which a step fails *)

Module Faulty.

(** No template can be read. *)
Definition env_no_templates : Env :=
  {| GMAIL_USER := Some "viajes@gmail.com";
     SECRET_KEY := Some "s3cr3t";
     API_BASE_URL := Some "https://api.example.com";
     FRONTEND_URL := None;
     transporter := Some Sample.smtp;
     readFile := fun _ => Throw Sample.enoent;
     sign := Sample.signer;
     formatDate := Sample.format;
     selectById := Sample.users;
     tripsById := Sample.trips |}.

Definition invalid_date : Error := mkError "Invalid time value" "RangeError".

(** Dates cannot be formatted. *)
Definition env_bad_dates : Env :=
  {| GMAIL_USER := Some "viajes@gmail.com";
     SECRET_KEY := Some "s3cr3t";
     API_BASE_URL := Some "https://api.example.com";
     FRONTEND_URL := None;
     transporter := Some Sample.smtp;
     readFile := Sample.files;
     sign := Sample.signer;
     formatDate := fun _ => Throw invalid_date;
     selectById := Sample.users;
     tripsById := Sample.trips |}.

(** The signing secret is not set. *)
Definition env_no_secret : Env :=
  {| GMAIL_USER := Some "viajes@gmail.com";
     SECRET_KEY := None;
     API_BASE_URL := Some "https://api.example.com";
     FRONTEND_URL := None;
     transporter := Some Sample.smtp;
     readFile := Sample.files;
     sign := Sample.signer;
     formatDate := Sample.format;
     selectById := Sample.users;
     tripsById := Sample.trips |}.

(** The provider rejects every mail. *)
Definition env_rejecting : Env :=
  Sample.env_with (Some (mkTransporter (fun _ _ => rejected Sample.smtp_down)))
    Sample.trips.

(** A request for a trip whose creator is not in the users table. *)
Definition orphan_trip : Trip.t := Trip.mk 8 42 "Oslo" "2024-07-01" "2024-07-03".

Definition env_orphan_trip : Env :=
  Sample.env_with (Some Sample.smtp)
    (fun id => if (id =? 8)%N then Normal (Some orphan_trip) else Normal None).

Definition request_orphan : Participation.t := Participation.mk 9 8 2 (Some "hola").

End Faulty.

(** ** The module-level transporter *)

(** [nodemailer.createTransport(options)] of the nodemailer library: it
    returns a transporter object whatever the options hold, the credentials
    being looked at only when a mail is sent. [provider user pass] is how the
    provider settles a dispatch made with these credentials. *)
Definition createTransport
    (provider : option string -> option string -> nat -> Mail.t -> Settled)
    (user pass : option string) : Transporter :=
  mkTransporter (provider user pass).

(** [const transporter = nodemailer.createTransport({ service: 'gmail',
    auth: { user: process.env.GMAIL_USER, pass: process.env.GMAIL_APP_PASSWORD } })]:
    the constant is bound to the object, which is truthy. *)
Definition module_transporter
    (provider : option string -> option string -> nat -> Mail.t -> Settled)
    (GMAIL_USER GMAIL_APP_PASSWORD : option string) : option Transporter :=
  Some (createTransport provider GMAIL_USER GMAIL_APP_PASSWORD).

(** The environment [env] once the module is loaded with the password
    [GMAIL_APP_PASSWORD]: its transporter is the one the module creates. *)
Definition module_env
    (provider : option string -> option string -> nat -> Mail.t -> Settled)
    (GMAIL_APP_PASSWORD : option string) (env : Env) : Env :=
  {| GMAIL_USER := GMAIL_USER env;
     SECRET_KEY := SECRET_KEY env;
     API_BASE_URL := API_BASE_URL env;
     FRONTEND_URL := FRONTEND_URL env;
     transporter := module_transporter provider (GMAIL_USER env) GMAIL_APP_PASSWORD;
     readFile := readFile env;
     sign := sign env;
     formatDate := formatDate env;
     selectById := selectById env;
     tripsById := tripsById env |}.

(** ** Deployments for the links and the credentials *)

Module Deployed.





Definition missing_credentials : Error :=
  mkError "Missing credentials for PLAIN" "Error: Missing credentials for PLAIN".

(** The provider accepts a mail when both credentials are given and
    rejects it otherwise. *)
Definition gmail (user pass : option string) (n : nat) (mail : Mail.t) : Settled :=
  match user, pass with
  | Some _, Some _ => fulfilled "250 OK"
  | _, _ => rejected missing_credentials
  end.

(** The module loaded while [GMAIL_USER] and [GMAIL_APP_PASSWORD] are not
    set. *)
Definition env_missing_credentials : Env :=
  module_env gmail None
    {| GMAIL_USER := None;
       SECRET_KEY := Some "s3cr3t";
       API_BASE_URL := Some "https://api.example.com";
       FRONTEND_URL := None;
       transporter := None;
       readFile := Sample.files;
       sign := Sample.signer;
       formatDate := Sample.format;
       selectById := Sample.users;
       tripsById := Sample.trips |}.

End Deployed.

(** * Properties *)

(** ** Strings *)

#[local] Arguments Ascii.eqb : simpl never.

Lemma string_app_assoc (a b c : string) : (a ++ b) ++ c = a ++ (b ++ c).
Proof. induction a as [|x a IH]; simpl; [reflexivity | now rewrite IH]. Qed.

Lemma string_app_length (a b : string) :
  String.length (a ++ b) = String.length a + String.length b.
Proof. induction a as [|x a IH]; simpl; [reflexivity | now rewrite IH]. Qed.

Lemma strip_prefix_app (p r : string) : strip_prefix p (p ++ r) = Some r.
Proof.
  induction p as [|a p IH]; simpl; [reflexivity |].
  now rewrite Ascii.eqb_refl.
Qed.

Lemma strip_prefix_length (p s r : string) :
  strip_prefix p s = Some r -> String.length s = String.length p + String.length r.
Proof.
  revert s; induction p as [|a p IH]; intros s H; simpl in *.
  - now inversion H.
  - destruct s as [|b s]; [discriminate |].
    destruct (Ascii.eqb a b); [| discriminate].
    simpl. now rewrite (IH _ H).
Qed.

(** ** The replacement loop *)

Section ReplaceLoop.

Variables (tok repl : string).
Hypothesis tok_nonempty : tok <> "".

(** Any fuel that covers the input gives the same result. *)
Lemma replace_from_fuel (fuel1 : nat) :
  forall fuel2 before s,
    String.length s <= fuel1 ->
    String.length s <= fuel2 ->
    replace_from fuel1 tok repl before s = replace_from fuel2 tok repl before s.
Proof using tok_nonempty.
  induction fuel1 as [|fuel1 IH]; intros fuel2 before s H1 H2.
  - destruct s; simpl in *; [now destruct fuel2 | lia].
  - destruct s as [|c s]; [now destruct fuel2 |].
    destruct fuel2 as [|fuel2]; [simpl in H2; lia |].
    cbn [replace_from].
    destruct (strip_prefix tok (String c s)) as [after|] eqn:Hp.
    + apply strip_prefix_length in Hp.
      assert (0 < String.length tok) by (destruct tok; [congruence | simpl; lia]).
      simpl in Hp, H1, H2.
      f_equal. apply IH; lia.
    + simpl in H1, H2. f_equal. apply IH; lia.
Qed.

Lemma scan_skip (before : string) (c : ascii) (s : string) :
  strip_prefix tok (String c s) = None ->
  scan tok repl before (String c s)
  = String c (scan tok repl (before ++ String c "") s).
Proof.
  intros Hp. unfold scan. cbn [String.length replace_from].
  now rewrite Hp.
Qed.

Lemma scan_match (before s after : string) :
  strip_prefix tok s = Some after ->
  scan tok repl before s
  = getSubstitution tok before after repl ++ scan tok repl (before ++ tok) after.
Proof using tok_nonempty.
  intros Hp. unfold scan.
  destruct s as [|c s].
  - destruct tok; [congruence | discriminate].
  - cbn [String.length replace_from]. rewrite Hp. f_equal.
    apply strip_prefix_length in Hp.
    assert (0 < String.length tok) by (destruct tok; [congruence | simpl; lia]).
    simpl in Hp. apply replace_from_fuel; lia.
Qed.

End ReplaceLoop.

Lemma getSubstitution_plain (matched before after repl : string) :
  no_char "$" repl = true ->
  getSubstitution matched before after repl = repl.
Proof.
  induction repl as [|c r IH]; simpl; [reflexivity |].
  intros H. apply andb_prop in H as [Hc Hr].
  apply negb_true_iff in Hc. rewrite Hc. now rewrite IH.
Qed.

Lemma placeholder_nonempty (key : string) : placeholder key <> "".
Proof. discriminate. Qed.

Lemma single_braces_tail (c : ascii) (s : string) :
  single_braces (String c s) = true -> single_braces s = true.
Proof. simpl. intros H. now apply andb_prop in H. Qed.

(** No token starts inside text whose braces are single. *)
Lemma strip_placeholder_literal (key : string) (c : ascii) (s rest : string) :
  single_braces (String c s) = true ->
  strip_prefix (placeholder key) (String c s ++ rest) = None.
Proof.
  intros H. simpl in H. apply andb_prop in H as [H _].
  unfold placeholder. simpl.
  destruct (Ascii.eqb_spec "{" c) as [<-|Hc]; [| reflexivity].
  rewrite Ascii.eqb_refl in H. destruct s as [|d s]; [discriminate |].
  simpl. rewrite Ascii.eqb_sym. apply negb_true_iff in H. now rewrite H.
Qed.

Lemma scan_literal (key repl : string) (s : string) :
  forall before rest,
    single_braces s = true ->
    scan (placeholder key) repl before (s ++ rest)
    = s ++ scan (placeholder key) repl (before ++ s) rest.
Proof.
  induction s as [|c s IH]; intros before rest H.
  - simpl. f_equal. clear. induction before; simpl; congruence.
  - change (String c s ++ rest) with (String c (s ++ rest)).
    rewrite scan_skip by (apply (strip_placeholder_literal key c s rest H)).
    rewrite IH by (apply (single_braces_tail c s H)).
    simpl. now rewrite string_app_assoc.
Qed.

Lemma strip_key_mismatch (k : string) :
  forall k' rest,
    no_char "}" k = true -> no_char "}" k' = true -> k <> k' ->
    strip_prefix (k ++ "}}") (k' ++ "}}" ++ rest) = None.
Proof.
  induction k as [|c k IH]; intros k' rest Hk Hk' Hne.
  - destruct k' as [|d k']; [congruence |].
    simpl in Hk'. apply andb_prop in Hk' as [Hd _].
    apply negb_true_iff in Hd. simpl. rewrite Ascii.eqb_sym. now rewrite Hd.
  - simpl in Hk. apply andb_prop in Hk as [Hc Hk].
    apply negb_true_iff in Hc.
    destruct k' as [|d k'].
    + simpl. now rewrite Hc.
    + simpl in Hk'. apply andb_prop in Hk' as [_ Hk'].
      simpl. destruct (Ascii.eqb_spec c d) as [->|]; [| reflexivity].
      apply IH; [assumption | assumption | congruence].
Qed.

Lemma single_braces_no_brace (s : string) :
  no_char "{" s = true -> single_braces (s ++ "}}") = true.
Proof.
  induction s as [|c s IH]; [reflexivity |].
  simpl. intros H. apply andb_prop in H as [Hc Hs].
  apply negb_true_iff in Hc. rewrite Hc. now apply IH.
Qed.

Lemma single_braces_key (k : string) :
  no_char "{" k = true -> single_braces (String "{" (k ++ "}}")) = true.
Proof.
  intros H. cbn [single_braces]. rewrite Ascii.eqb_refl.
  rewrite (single_braces_no_brace k H), andb_true_r.
  destruct k as [|c k]; [reflexivity |].
  simpl in *. now apply andb_prop in H.
Qed.

Lemma word_chars_no_char (c : ascii) (s : string) :
  is_letter c || is_digit c = false -> word_chars s = true -> no_char c s = true.
Proof.
  intros Hc. induction s as [|d s IH]; [reflexivity |].
  simpl. intros H. apply andb_prop in H as [Hd Hs].
  rewrite (IH Hs), andb_true_r.
  destruct (Ascii.eqb_spec d c) as [->|]; [congruence | reflexivity].
Qed.

(** An identifier holds no brace. *)
Lemma key_ok_no_brace (key : string) :
  key_ok key = true -> no_char "{" key = true /\ no_char "}" key = true.
Proof.
  intros H.
  assert (Hw : word_chars key = true).
  { destruct key as [|c key]; [discriminate |].
    simpl in *. apply andb_prop in H as [Hc Hs]. now rewrite Hc, Hs. }
  split; apply word_chars_no_char; (reflexivity || assumption).
Qed.

(** A token of another key is copied. *)
Lemma scan_other_token (k repl k' before rest : string) :
  key_ok k = true -> key_ok k' = true -> k <> k' ->
  scan (placeholder k) repl before (placeholder k' ++ rest)
  = placeholder k' ++ scan (placeholder k) repl (before ++ placeholder k') rest.
Proof.
  intros Hk Hk' Hne.
  apply key_ok_no_brace in Hk as [_ Hk].
  apply key_ok_no_brace in Hk' as [Hk'o Hk'c].
  unfold placeholder at 2 4. rewrite string_app_assoc.
  change ("{{" ++ (k' ++ "}}") ++ rest)
    with (String "{" (String "{" (k' ++ "}}") ++ rest)).
  rewrite scan_skip.
  - rewrite scan_literal by now apply single_braces_key.
    rewrite (string_app_assoc before). reflexivity.
  - unfold placeholder. simpl. rewrite ?Ascii.eqb_refl.
    rewrite string_app_assoc. now apply strip_key_mismatch.
Qed.

(** A token of the key is replaced by the value, when the value holds no
    dollar sign. *)
Lemma scan_same_token (k repl before rest : string) :
  no_char "$" repl = true ->
  scan (placeholder k) repl before (placeholder k ++ rest)
  = repl ++ scan (placeholder k) repl (before ++ placeholder k) rest.
Proof.
  intros Hplain.
  rewrite (scan_match _ _ (placeholder_nonempty k) _ _ rest)
    by apply strip_prefix_app.
  now rewrite getSubstitution_plain.
Qed.

Lemma lookup_single (k v key : string) :
  lookup key [(k, v)] = if k =? key then Some v else None.
Proof. reflexivity. Qed.

(** One [replace] call on a template given by its pieces. *)
Lemma scan_flatten (k v : string) (segs : list Segment) :
  key_ok k = true -> no_char "$" v = true ->
  forallb segment_ok segs = true ->
  forall before,
    scan (placeholder k) v before (flatten segs)
    = flatten (map (substitute [(k, v)]) segs).
Proof.
  intros Hk Hv. induction segs as [|seg segs IH]; intros Hs before.
  - reflexivity.
  - simpl in Hs. apply andb_prop in Hs as [Hseg Hs].
    destruct seg as [text|key]; simpl in Hseg.
    + cbn [flatten map substitute]. rewrite scan_literal by assumption.
      now rewrite IH.
    + cbn [flatten map substitute]. rewrite lookup_single.
      destruct (String.eqb_spec k key) as [<-|Hne].
      * rewrite scan_same_token by assumption. simpl. now rewrite IH.
      * rewrite scan_other_token by assumption. cbn [flatten]. now rewrite IH.
Qed.

Lemma substitute_ok (k v : string) (segs : list Segment) :
  value_ok v = true ->
  forallb segment_ok segs = true ->
  forallb segment_ok (map (substitute [(k, v)]) segs) = true.
Proof.
  intros Hv. apply andb_prop in Hv as [_ Hv].
  induction segs as [|seg segs IH]; [reflexivity |].
  simpl. intros H. apply andb_prop in H as [Hseg Hs].
  rewrite (IH Hs), andb_true_r.
  destruct seg as [text|key]; [assumption |].
  simpl. destruct (k =? key); assumption.
Qed.

Lemma substitute_cons (k v : string) (vars : list (string * string)) (seg : Segment) :
  substitute vars (substitute [(k, v)] seg) = substitute ((k, v) :: vars) seg.
Proof.
  destruct seg as [text|key]; [reflexivity |].
  simpl. destruct (k =? key); reflexivity.
Qed.

(** The chain of [replace] calls does what the specification says, on
    templates and values that cannot form a token by accident. *)
Lemma render_flatten (vars : list (string * string)) :
  forall segs,
    vars_ok vars = true ->
    forallb segment_ok segs = true ->
    render vars (flatten segs) = render_spec vars segs.
Proof.
  unfold render_spec.
  induction vars as [|[k v] vars IH]; intros segs Hvars Hsegs.
  - simpl. f_equal. symmetry. rewrite <- (map_id segs) at 2.
    apply map_ext. now intros [text|key].
  - simpl in Hvars. apply andb_prop in Hvars as [Hkv Hvars].
    apply andb_prop in Hkv as [Hk Hv].
    change (render ((k, v) :: vars) (flatten segs))
      with (render vars (str_replace k v (flatten segs))).
    unfold str_replace. pose proof Hv as Hv'.
    apply andb_prop in Hv' as [Hplain _].
    rewrite scan_flatten by assumption.
    rewrite IH by (try assumption; now apply substitute_ok).
    rewrite map_map. f_equal. apply map_ext. intros seg. apply substitute_cons.
Qed.

(** ** Traces *)

Lemma dispatches_app (tr1 tr2 : list Event) :
  dispatches (tr1 ++ tr2)%list = (dispatches tr1 ++ dispatches tr2)%list.
Proof.
  induction tr1 as [|[m|p d|l a] tr1 IH]; simpl; [reflexivity | | |]; now rewrite IH.
Qed.

Lemma signatures_app (tr1 tr2 : list Event) :
  signatures (tr1 ++ tr2)%list = (signatures tr1 ++ signatures tr2)%list.
Proof.
  induction tr1 as [|[m|p d|l a] tr1 IH]; simpl; [reflexivity | | |]; now rewrite IH.
Qed.

Lemma dispatches_sent (mails : list Mail.t) :
  dispatches (map EvSendMail mails) = mails.
Proof. induction mails as [|m mails IH]; simpl; [reflexivity | now rewrite IH]. Qed.

(** ** sendTripUpdateNotification *)

Section TripUpdate.

Variables (env : Env) (transporter0 : Transporter).
Variables (oldTrip updatedTrip : Trip.t).
Variables (htmlTemplate newStartDate newEndDate oldStartDate oldEndDate : string).

Hypothesis new_start : formatDate env (Trip.start_date updatedTrip) = Normal newStartDate.
Hypothesis new_end : formatDate env (Trip.end_date updatedTrip) = Normal newEndDate.
Hypothesis old_start : formatDate env (Trip.start_date oldTrip) = Normal oldStartDate.
Hypothesis old_end : formatDate env (Trip.end_date oldTrip) = Normal oldEndDate.

Local Abbreviation tripDetailsUrl :=
  (or_else (FRONTEND_URL env) "https://app-viajes.netlify.app"
   ++ "/trips/" ++ N_to_string (Trip.id_trip updatedTrip)).

Local Abbreviation mailTo :=
  (tripUpdateMail env htmlTemplate updatedTrip
     newStartDate newEndDate oldStartDate oldEndDate).

(** The callback submits the mail of its participant. *)
Lemma notifyParticipant_run (participant : User.t) (tr : list Event) :
  notifyParticipant env transporter0 htmlTemplate tripDetailsUrl
    oldTrip updatedTrip participant tr
  = ((tr ++ [EvSendMail (mailTo participant)])%list,
     Normal (deliver transporter0 (length (dispatches tr)) (mailTo participant))).
Proof using new_start new_end old_start old_end.
  unfold notifyParticipant, bind, call.
  rewrite new_start, new_end, old_start, old_end.
  reflexivity.
Qed.

(** The [map] submits one mail per recipient, in order. *)
Lemma mapM_notify (recipients : list User.t) :
  forall tr,
    mapM (notifyParticipant env transporter0 htmlTemplate tripDetailsUrl
            oldTrip updatedTrip) recipients tr
    = ((tr ++ map EvSendMail (map mailTo recipients))%list,
       Normal (settle_all transporter0 (length (dispatches tr))
                 (map mailTo recipients))).
Proof using new_start new_end old_start old_end.
  induction recipients as [|p recipients IH]; intros tr.
  - simpl. unfold ret. now rewrite app_nil_r.
  - cbn [mapM map settle_all]. unfold bind at 1.
    rewrite notifyParticipant_run. unfold bind at 1. rewrite IH.
    unfold ret. rewrite dispatches_app, length_app. simpl.
    rewrite Nat.add_1_r, <- app_assoc. reflexivity.
Qed.

Lemma settle_all_length (n : nat) (mails : list Mail.t) :
  length (settle_all transporter0 n mails) = length mails.
Proof.
  revert n; induction mails as [|m mails IH]; intros n; simpl;
    [reflexivity | now rewrite IH].
Qed.

(** The whole call when the transporter is there, the template loads and
    somebody is left to notify. *)
Lemma sendTripUpdateNotification_run (participants : list User.t)
    (creatorEmail : string) (tr : list Event) :
  transporter env = Some transporter0 ->
  readFile env (templatePath "datesModified.html") = Normal htmlTemplate ->
  let recipients :=
    filter (fun p => negb (User.email p =? creatorEmail)) participants in
  let results :=
    settle_all transporter0 (length (dispatches tr)) (map mailTo recipients) in
  recipients <> [] ->
  dispatches
    (fst (sendTripUpdateNotification env participants oldTrip updatedTrip
            creatorEmail tr))
  = (dispatches tr ++ map mailTo recipients)%list
  /\ snd (sendTripUpdateNotification env participants oldTrip updatedTrip
            creatorEmail tr)
     = Normal (Some {| Stats.sent := length (filter is_fulfilled results);
                       Stats.failed := length (filter is_rejected results);
                       Stats.total := length recipients |}).
Proof using new_start new_end old_start old_end.
  intros Ht Htpl recipients results Hne.
  assert (Hp : (length participants =? 0)%nat = false).
  { subst results recipients. destruct participants; [now contradiction Hne | reflexivity]. }
  assert (Hr : (length recipients =? 0)%nat = false).
  { clearbody recipients. destruct recipients; [now contradiction Hne | reflexivity]. }
  assert (Hlen : length results = length recipients)
    by (unfold results; now rewrite settle_all_length, length_map).
  destruct (sendTripUpdateNotification env participants oldTrip updatedTrip
              creatorEmail tr) as [tr' c] eqn:E.
  revert E. unfold sendTripUpdateNotification. rewrite Ht, Hp.
  unfold try_catch, loadTemplate, call. unfold bind at 1. rewrite Htpl.
  fold recipients. rewrite Hr.
  unfold bind at 1. fold tripDetailsUrl. rewrite mapM_notify.
  unfold bind at 1, allSettled, ret. fold results. rewrite Hlen.
  destruct (0 <? length (filter is_rejected results))%nat;
    unfold bind, console, emit, ret; intros E; inversion E; subst tr' c;
    cbn [fst snd]; rewrite ?dispatches_app, dispatches_sent; simpl;
    rewrite ?app_nil_r; split; reflexivity.
Qed.

End TripUpdate.

(** [sendTripUpdateNotification] completes normally, whatever happens
    inside. *)
Lemma sendTripUpdateNotification_returns (env : Env) (participants : list User.t)
    (oldTrip updatedTrip : Trip.t) (creatorEmail : string) (tr : list Event) :
  exists r,
    snd (sendTripUpdateNotification env participants oldTrip updatedTrip
           creatorEmail tr) = Normal r.
Proof.
  unfold sendTripUpdateNotification.
  destruct (transporter env) as [t|]; [| now eexists].
  destruct (length participants =? 0)%nat; [now eexists |].
  unfold try_catch, loadTemplate, call. unfold bind at 1.
  destruct (readFile env _) as [tpl|e]; [| now eexists].
  destruct (length _ =? 0)%nat; [now eexists |].
  unfold bind at 1.
  destruct (mapM _ _ tr) as [tr1 [promises|e]]; [| now eexists].
  unfold bind at 1, allSettled, ret.
  destruct (0 <? _)%nat; now eexists.
Qed.

(** Nothing is dispatched and [undefined] is returned when the transporter
    is missing or nobody takes part. *)
Lemma sendTripUpdateNotification_unavailable (env : Env)
    (participants : list User.t) (oldTrip updatedTrip : Trip.t)
    (creatorEmail : string) (tr : list Event) :
  transporter env = None \/ participants = [] ->
  sendTripUpdateNotification env participants oldTrip updatedTrip creatorEmail tr
  = ((tr ++ [EvConsole Level_warn
               ["⚠️ No se pueden enviar emails: transporter no disponible o sin participantes"]])%list,
     Normal None).
Proof.
  unfold sendTripUpdateNotification.
  intros [-> | ->]; [reflexivity |].
  now destruct (transporter env).
Qed.

(** Only the creator takes part: the template is loaded, nothing is
    dispatched and [undefined] is returned. *)
Lemma sendTripUpdateNotification_only_creator (env : Env) (t : Transporter)
    (participants : list User.t) (oldTrip updatedTrip : Trip.t)
    (creatorEmail htmlTemplate : string) (tr : list Event) :
  transporter env = Some t ->
  readFile env (templatePath "datesModified.html") = Normal htmlTemplate ->
  participants <> [] ->
  filter (fun p => negb (User.email p =? creatorEmail)) participants = [] ->
  sendTripUpdateNotification env participants oldTrip updatedTrip creatorEmail tr
  = ((tr ++ [EvConsole Level_log
               ["ℹ️ No hay participantes a notificar (solo el creador)"]])%list,
     Normal None).
Proof.
  intros Ht Htpl Hne Hrec.
  unfold sendTripUpdateNotification. rewrite Ht.
  destruct participants as [|p ps] eqn:Hps; [congruence |].
  rewrite <- Hps in *. replace (length participants =? 0)%nat with false
    by now rewrite Hps.
  unfold try_catch, loadTemplate, call. unfold bind at 1.
  rewrite Htpl, Hrec. reflexivity.
Qed.

(** ** sendVerifyEmailTo *)

Lemma sendVerifyEmailTo_returns (env : Env) (userData : User.t) (tr : list Event) :
  snd (sendVerifyEmailTo env userData tr) = Normal tt.
Proof.
  unfold sendVerifyEmailTo.
  destruct (transporter env) as [t|]; [| reflexivity].
  unfold try_catch, loadTemplate, jwt_sign, call, bind, emit, sendMail.
  destruct (readFile env _) as [tpl|e]; [| reflexivity].
  destruct (sign env _ _ _) as [token|e]; [| reflexivity].
  destruct (deliver t _ _) as [info|e]; reflexivity.
Qed.


(** ** sendPendingRequestEmail *)

Lemma dispatches_after_signs (tr : list Event) (p1 p2 : Payload) (d1 d2 : string) :
  dispatches ((tr ++ [EvSign p1 d1]) ++ [EvSign p2 d2])%list = dispatches tr.
Proof. rewrite !dispatches_app. simpl. now rewrite !app_nil_r. Qed.

Section PendingRequest.

Variables (env : Env) (transporter0 : Transporter).
Variable req : Participation.t.
Hypothesis available : transporter env = Some transporter0.

Lemma sendPendingRequestEmail_run (participant : User.t) (trip : Trip.t)
    (creator : User.t) (html acceptToken rejectToken startDate endDate : string)
    (tr : list Event) :
  resolved env req participant trip creator ->
  readFile env (templatePath "pendingRequest.html") = Normal html ->
  sign env (ActionPayload (Participation.id_participation req) "accepted")
    (SECRET_KEY env) "7d" = Normal acceptToken ->
  sign env (ActionPayload (Participation.id_participation req) "rejected")
    (SECRET_KEY env) "7d" = Normal rejectToken ->
  formatDate env (Trip.start_date trip) = Normal startDate ->
  formatDate env (Trip.end_date trip) = Normal endDate ->
  let mail :=
    pendingRequestMail env html req participant trip creator
      startDate endDate acceptToken rejectToken in
  sendPendingRequestEmail env req tr
  = ((tr ++ [EvSign (ActionPayload (Participation.id_participation req) "accepted") "7d";
             EvSign (ActionPayload (Participation.id_participation req) "rejected") "7d";
             EvSendMail mail])%list,
     match deliver transporter0 (length (dispatches tr)) mail with
     | fulfilled info => Normal (Some info)
     | rejected reason => Throw reason
     end).
Proof using available.
  intros (Hu & Ht & Hc) Htpl Ha Hr Hs He mail.
  unfold sendPendingRequestEmail. rewrite available.
  unfold try_catch, loadTemplate, jwt_sign, call, bind, emit, sendMail, ret.
  rewrite Hu, Ht, Hc, Htpl, Ha, Hr, Hs, He.
  rewrite dispatches_after_signs.
  set (m := Mail.mk _ _ _ _). change m with mail. clear m. clearbody mail.
  rewrite <- !app_assoc. simpl.
  unfold await, ret, throw.
  destruct (deliver transporter0 (length (dispatches tr)) mail); reflexivity.
Qed.

(** Every failing step reaches the caller. *)
Lemma sendPendingRequestEmail_throws (e : Error) (tr : list Event) :
  pending_step_throws env transporter0 (length (dispatches tr)) req e ->
  snd (sendPendingRequestEmail env req tr) = Throw e.
Proof using available.
  intros H.
  destruct H as [Hu | p Hu Ht | p t Hu Ht Hc | p t c Hres Htpl
                 | p t c html Hres Htpl Ha | p t c html a Hres Htpl Ha Hr
                 | p t c html a r Hres Htpl Ha Hr Hs
                 | p t c html a r s Hres Htpl Ha Hr Hs He
                 | p t c html a r s d Hres Htpl Ha Hr Hs He Hd];
    try (rewrite (sendPendingRequestEmail_run p t c html a r s d tr)
           by assumption; cbn [snd]; now rewrite Hd);
    try destruct Hres as (Hu & Ht & Hc);
    unfold sendPendingRequestEmail; rewrite available;
    unfold try_catch, loadTemplate, jwt_sign, call, bind, emit, sendMail, ret;
    rewrite ?Hu, ?Ht, ?Hc, ?Htpl, ?Ha, ?Hr, ?Hs, ?He; reflexivity.
Qed.

End PendingRequest.

Lemma sendPendingRequestEmail_unavailable (env : Env) (req : Participation.t)
    (tr : list Event) :
  transporter env = None ->
  sendPendingRequestEmail env req tr = (tr, Normal None).
Proof. unfold sendPendingRequestEmail. now intros ->. Qed.

(** A lookup that finds nothing ends the call: nothing is dispatched,
    [undefined] is returned. *)
Lemma sendPendingRequestEmail_nothing (env : Env) (req : Participation.t)
    (tr : list Event) :
  lookup_returns_nothing env req ->
  dispatches (fst (sendPendingRequestEmail env req tr)) = dispatches tr
  /\ snd (sendPendingRequestEmail env req tr) = Normal None.
Proof.
  intros H. unfold sendPendingRequestEmail.
  destruct (transporter env) as [t|]; [| now split].
  unfold try_catch, call, bind, ret.
  destruct H as [(p & t0 & Hu & Ht & Hnone) | (p & t0 & Hu & Ht & Hc)].
  - rewrite Hu, Ht.
    destruct Hnone as [-> | ->]; [| destruct p]; unfold console, emit;
      cbn [fst snd]; rewrite dispatches_app; simpl; rewrite app_nil_r;
      now split.
  - rewrite Hu, Ht, Hc. now split.
Qed.

(** Nothing is dispatched once a lookup returned nothing, also when another
    lookup throws. *)
Lemma sendPendingRequestEmail_no_dispatch (env : Env) (req : Participation.t)
    (tr : list Event) :
  lookup_finds_nothing env req ->
  dispatches (fst (sendPendingRequestEmail env req tr)) = dispatches tr.
Proof.
  intros H. unfold sendPendingRequestEmail.
  destruct (transporter env) as [t|]; [| reflexivity].
  unfold try_catch, call, bind, ret, console, emit, throw.
  destruct H as [Hu | [Ht | (p & t0 & Hu & Ht & Hc)]].
  - rewrite Hu.
    destruct (tripsById env _) as [trip|e]; cbn [fst];
      rewrite dispatches_app; simpl; now rewrite app_nil_r.
  - rewrite Ht.
    destruct (selectById env _) as [[p|]|e]; cbn [fst];
      rewrite dispatches_app; simpl; now rewrite app_nil_r.
  - rewrite Hu, Ht, Hc. reflexivity.
Qed.

(** * The specification, statement by statement *)

(** ** Rendering *)

Example str_replace_all_occurrences :
  str_replace "a" "X" "1{{a}}2{{b}}3{{a}}" = "1X2{{b}}3X".
Proof. reflexivity. Qed.

Example str_replace_leftmost : str_replace "a" "X" "{{{a}}}{{a}" = "{X}{{a}".
Proof. reflexivity. Qed.

(** The replacement text is not taken literally: the dollar patterns of
    [String.prototype.replace] are expanded in it. *)
Example str_replace_dollar_patterns :
  str_replace "a" "[$&|$`|$'|$$|$1]" "p{{a}}q" = "p[{{a}}|p|q|$|$1]q".
Proof. reflexivity. Qed.

Example render_dollar_value :
  render [("userMessage", "pago 5$$ o US$& ")] "<p>{{userMessage}}</p>"
  = "<p>pago 5$ o US{{userMessage}} </p>".
Proof. reflexivity. Qed.

(** The chains of the two functions are [render] of their mappings. *)
Lemma tripUpdate_chain (tpl name title ns ne os oe url : string) :
  (tpl
   |> str_replace "participantName" name
   |> str_replace "tripTitle" title
   |> str_replace "newStartDate" ns
   |> str_replace "newEndDate" ne
   |> str_replace "oldStartDate" os
   |> str_replace "oldEndDate" oe
   |> str_replace "tripDetailsUrl" url)
  = render (tripUpdateVars name title ns ne os oe url) tpl.
Proof. reflexivity. Qed.

(** C3 (as the code has it). For every template made of literal text and
    [{{key}}] tokens in which the literal text holds no [{{] (every opening
    brace is followed by another character, which is not an opening brace)
    and the keys are identifiers, and every mapping whose keys are
    identifiers and whose values hold no dollar sign and no [{{] either, the
    chain of [replace] calls replaces every token whose key has an entry by
    the value of its first entry, leaves the tokens without an entry as they
    are and leaves the text outside the tokens byte for byte. *)
Theorem C3_render_replaces_tokens (vars : list (string * string))
    (segs : list Segment) :
  vars_ok vars = true ->
  forallb segment_ok segs = true ->
  render vars (flatten segs) = render_spec vars segs.
Proof. apply render_flatten. Qed.

Lemma C3_render_replaces_tokens_witness :
  let vars := [("participantName", "Ana {y}"); ("tripTitle", "Roma"); ("tripTitle", "Oslo")] in
  let segs := [Lit "<style>p { margin: 0 }</style><p>Hola "; Tok "participantName";
               Lit ": "; Tok "tripTitle"; Tok "tripTitle"; Lit " "; Tok "firma";
               Lit "</p>"] in
  vars_ok vars = true
  /\ forallb segment_ok segs = true
  /\ render vars (flatten segs)
     = "<style>p { margin: 0 }</style><p>Hola Ana {y}: RomaRoma {{firma}}</p>".
Proof.
  intros vars segs.
  split; [reflexivity |]. split; [reflexivity |].
  rewrite (C3_render_replaces_tokens vars segs); reflexivity.
Defined.

(** C3 as it is stated fails: a value that holds the token of a later key is
    itself rewritten by the later [replace] call, so the first token is not
    replaced by the value of its key. *)
Lemma C3_counterexample :
  let vars := [("participantName", "{{tripTitle}}"); ("tripTitle", "Roma")] in
  let segs := [Lit "Hola "; Tok "participantName"; Lit ": "; Tok "tripTitle"] in
  render_spec vars segs = "Hola {{tripTitle}}: Roma"
  /\ render vars (flatten segs) = "Hola Roma: Roma"
  /\ render vars (flatten segs) <> render_spec vars segs.
Proof.
  intros vars segs. split; [reflexivity |]. split; [reflexivity |].
  vm_compute. discriminate.
Qed.

(** ** sendTripUpdateNotification: recipients and tally *)

Example trip_update_all_delivered :
  sendTripUpdateNotification Sample.env_reliable
    [Sample.carla; Sample.ana; Sample.bea] Sample.roma_old Sample.roma_new
    "carla@example.com" []
  = ([EvSendMail
        (tripUpdateMail Sample.env_reliable Sample.datesModified Sample.roma_new
           "[2024-06-01]" "[2024-06-08]" "[2024-05-01]" "[2024-05-08]" Sample.ana);
      EvSendMail
        (tripUpdateMail Sample.env_reliable Sample.datesModified Sample.roma_new
           "[2024-06-01]" "[2024-06-08]" "[2024-05-01]" "[2024-05-08]" Sample.bea);
      EvConsole Level_log
        ["✅ Emails de notificación: 2/2 enviados correctamente"]],
     Normal (Some {| Stats.sent := 2; Stats.failed := 0; Stats.total := 2 |})).
Proof. vm_compute. reflexivity. Qed.

Example trip_update_mail_text :
  Mail.html
    (tripUpdateMail Sample.env Sample.datesModified Sample.roma_new
       "[2024-06-01]" "[2024-06-08]" "[2024-05-01]" "[2024-05-08]" Sample.ana)
  = "<p>Hola Ana: Roma pasa de [2024-05-01]-[2024-05-08] a [2024-06-01]-[2024-06-08]. https://app-viajes.netlify.app/trips/7</p>".
Proof. vm_compute. reflexivity. Qed.

(** C1 (as the code has it). When the transporter is there, the template
    loads and the four dates are formatted without error: if at least one
    participant has an email other than [creatorEmail], one dispatch is
    submitted per such participant, in order, and the function returns
    [{sent, failed, total}] with [sent] the number of dispatches that settled
    fulfilled, [failed] the number that settled rejected and [total] the
    number of recipients; if no participant has another email, nothing is
    dispatched and the function returns [undefined]. *)
Theorem C1_trip_update_tally (env : Env) (t : Transporter)
    (participants : list User.t) (oldTrip updatedTrip : Trip.t)
    (creatorEmail htmlTemplate newStartDate newEndDate oldStartDate oldEndDate : string)
    (tr : list Event) :
  transporter env = Some t ->
  readFile env (templatePath "datesModified.html") = Normal htmlTemplate ->
  formatDate env (Trip.start_date updatedTrip) = Normal newStartDate ->
  formatDate env (Trip.end_date updatedTrip) = Normal newEndDate ->
  formatDate env (Trip.start_date oldTrip) = Normal oldStartDate ->
  formatDate env (Trip.end_date oldTrip) = Normal oldEndDate ->
  let recipients :=
    filter (fun p => negb (User.email p =? creatorEmail)) participants in
  let mails :=
    map (tripUpdateMail env htmlTemplate updatedTrip
           newStartDate newEndDate oldStartDate oldEndDate) recipients in
  let results := settle_all t (length (dispatches tr)) mails in
  let run :=
    sendTripUpdateNotification env participants oldTrip updatedTrip
      creatorEmail tr in
  (recipients <> [] ->
   map Mail.to mails = map User.email recipients
   /\ dispatches (fst run) = (dispatches tr ++ mails)%list
   /\ snd run
      = Normal (Some {| Stats.sent := length (filter is_fulfilled results);
                        Stats.failed := length (filter is_rejected results);
                        Stats.total := length recipients |}))
  /\ (recipients = [] ->
      dispatches (fst run) = dispatches tr /\ snd run = Normal None).
Proof.
  intros Ht Htpl Hns Hne Hos Hoe recipients mails results run. split.
  - intros Hrec. split.
    + unfold mails. rewrite map_map. reflexivity.
    + apply (sendTripUpdateNotification_run env t oldTrip updatedTrip htmlTemplate
               newStartDate newEndDate oldStartDate oldEndDate
               Hns Hne Hos Hoe participants creatorEmail tr Ht Htpl Hrec).
  - intros Hrec. unfold run.
    destruct participants as [|p ps] eqn:Hps.
    + rewrite sendTripUpdateNotification_unavailable by now right.
      cbn [fst snd]. rewrite dispatches_app. simpl. now rewrite app_nil_r.
    + rewrite (sendTripUpdateNotification_only_creator env t (p :: ps) oldTrip
                 updatedTrip creatorEmail htmlTemplate tr Ht Htpl)
        by (assumption || discriminate).
      cbn [fst snd]. rewrite dispatches_app. simpl. now rewrite app_nil_r.
Qed.

Lemma C1_trip_update_tally_witness :
  let run :=
    sendTripUpdateNotification Sample.env
      [Sample.carla; Sample.ana; Sample.bea] Sample.roma_old Sample.roma_new
      "carla@example.com" [] in
  map Mail.to (dispatches (fst run)) = ["ana@example.com"; "bea@example.com"]
  /\ snd run
     = Normal (Some {| Stats.sent := 1; Stats.failed := 1; Stats.total := 2 |}).
Proof.
  intros run.
  destruct (C1_trip_update_tally Sample.env Sample.smtp
              [Sample.carla; Sample.ana; Sample.bea] Sample.roma_old
              Sample.roma_new "carla@example.com" Sample.datesModified
              "[2024-06-01]" "[2024-06-08]" "[2024-05-01]" "[2024-05-08]" []
              eq_refl eq_refl eq_refl eq_refl eq_refl eq_refl) as [H _].
  destruct H as (Hto & Hsent & Hret); [discriminate |].
  split.
  - unfold run. rewrite Hsent. vm_compute. reflexivity.
  - unfold run. rewrite Hret. vm_compute. reflexivity.
Defined.

(** C1 as it is stated fails: the template loads, every participant is the
    creator, and the function returns [undefined], not a tally. *)
Lemma C1_counterexample :
  let run :=
    sendTripUpdateNotification Sample.env [Sample.carla] Sample.roma_old
      Sample.roma_new "carla@example.com" [] in
  readFile Sample.env (templatePath "datesModified.html")
  = Normal Sample.datesModified
  /\ snd run = Normal None
  /\ snd run
     <> Normal (Some {| Stats.sent := 0; Stats.failed := 0; Stats.total := 0 |}).
Proof.
  intros run. split; [vm_compute; reflexivity |].
  split; [vm_compute; reflexivity |].
  vm_compute. discriminate.
Qed.

(** C9. With an empty participant list the function returns at once:
    nothing is dispatched, nothing is thrown, [undefined] is returned. *)
Theorem C9_trip_update_no_participants (env : Env) (oldTrip updatedTrip : Trip.t)
    (creatorEmail : string) (tr : list Event) :
  dispatches
    (fst (sendTripUpdateNotification env [] oldTrip updatedTrip creatorEmail tr))
  = dispatches tr
  /\ snd (sendTripUpdateNotification env [] oldTrip updatedTrip creatorEmail tr)
     = Normal None.
Proof.
  rewrite sendTripUpdateNotification_unavailable by now right.
  cbn [fst snd]. rewrite dispatches_app. simpl. now rewrite app_nil_r.
Qed.

(** ** A falsy transporter *)

(** What the guards [if (!transporter)] would do: were the transporter
    falsy, each of the three functions would return without submitting a
    dispatch and without throwing. *)
Lemma falsy_transporter_no_op (env : Env) :
  transporter env = None ->
  (forall userData tr, sendVerifyEmailTo env userData tr = (tr, Normal tt))
  /\ (forall participants oldTrip updatedTrip creatorEmail tr,
        dispatches
          (fst (sendTripUpdateNotification env participants oldTrip updatedTrip
                  creatorEmail tr)) = dispatches tr
        /\ snd (sendTripUpdateNotification env participants oldTrip updatedTrip
                  creatorEmail tr) = Normal None)
  /\ (forall req tr, sendPendingRequestEmail env req tr = (tr, Normal None)).
Proof.
  intros H. split; [| split].
  - intros userData tr. unfold sendVerifyEmailTo. now rewrite H.
  - intros participants oldTrip updatedTrip creatorEmail tr.
    rewrite sendTripUpdateNotification_unavailable by now left.
    cbn [fst snd]. rewrite dispatches_app. simpl. now rewrite app_nil_r.
  - intros req tr. now apply sendPendingRequestEmail_unavailable.
Qed.

(** ** Who sees a failure *)

(** C4. [sendVerifyEmailTo] never throws to its caller: whatever the
    transporter, the template load, the signature and the dispatch do, the
    call completes normally. *)
Theorem C4_verify_never_raises (env : Env) (userData : User.t) (tr : list Event) :
  snd (sendVerifyEmailTo env userData tr) = Normal tt.
Proof. apply sendVerifyEmailTo_returns. Qed.

Example verify_without_secret :
  sendVerifyEmailTo
    {| GMAIL_USER := None; SECRET_KEY := None; API_BASE_URL := None;
       FRONTEND_URL := None; transporter := Some Sample.smtp;
       readFile := Sample.files; sign := Sample.signer;
       formatDate := Sample.format; selectById := Sample.users;
       tripsById := Sample.trips |}
    Sample.ana []
  = ([EvSign (VerifyPayload 2) "1d";
      EvConsole Level_error
        ["❌ Error sending verification email:";
         "secretOrPrivateKey must have a value"]],
     Normal tt).
Proof. vm_compute. reflexivity. Qed.

(** C5. The three functions do not treat a failure alike: when an
    internal step of [sendPendingRequestEmail] throws (a lookup, the template
    load, a signature, a date format, the dispatch), the error reaches the
    caller; [sendVerifyEmailTo] and [sendTripUpdateNotification] complete
    normally whatever happens inside. *)
Theorem C5_propagation_is_asymmetric :
  (forall env t req e tr,
      transporter env = Some t ->
      pending_step_throws env t (length (dispatches tr)) req e ->
      snd (sendPendingRequestEmail env req tr) = Throw e)
  /\ (forall env userData tr, snd (sendVerifyEmailTo env userData tr) = Normal tt)
  /\ (forall env participants oldTrip updatedTrip creatorEmail tr,
        exists r,
          snd (sendTripUpdateNotification env participants oldTrip updatedTrip
                 creatorEmail tr) = Normal r).
Proof.
  split; [| split].
  - intros env t req e tr Ht H.
    now apply (sendPendingRequestEmail_throws env t req Ht).
  - apply sendVerifyEmailTo_returns.
  - apply sendTripUpdateNotification_returns.
Qed.

Lemma C5_propagation_is_asymmetric_witness :
  tripsById Sample.env_db_down 7%N = Throw Sample.db_down
  /\ snd (sendPendingRequestEmail Sample.env_db_down Sample.request [])
     = Throw Sample.db_down
  /\ snd (sendVerifyEmailTo Sample.env_db_down Sample.ana []) = Normal tt.
Proof.
  destruct C5_propagation_is_asymmetric as (Hp & Hv & _).
  split; [reflexivity |]. split; [| apply Hv].
  apply (Hp Sample.env_db_down Sample.smtp Sample.request Sample.db_down []);
    [reflexivity |].
  apply (trip_lookup_throws _ _ _ _ _ (Some Sample.ana)); reflexivity.
Defined.

(** A rejected dispatch of [sendPendingRequestEmail] reaches the caller
    too, though not through the [catch] block: nothing is logged. *)
Example pending_dispatch_rejected :
  sendPendingRequestEmail
    (Sample.env_with (Some (mkTransporter (fun _ _ => rejected Sample.smtp_down)))
       Sample.trips)
    Sample.request []
  = ([EvSign (ActionPayload 5 "accepted") "7d";
      EvSign (ActionPayload 5 "rejected") "7d";
      EvSendMail
        (pendingRequestMail Sample.env Sample.pendingRequest Sample.request
           Sample.ana Sample.roma_new Sample.carla "[2024-06-01]" "[2024-06-08]"
           "accepted-5.7d.s3cr3t" "rejected-5.7d.s3cr3t")],
     Throw Sample.smtp_down).
Proof. vm_compute. reflexivity. Qed.

(** ** sendPendingRequestEmail: lookups that find nothing *)

(** C6 (as the code has it). When the lookup of the requesting user, of
    the trip or of the creator of the trip returns nothing, nothing is
    dispatched; and when moreover no lookup made before the function gives
    up has thrown, the function returns [undefined] without throwing. *)
Theorem C6_pending_lookup_nothing (env : Env) (req : Participation.t)
    (tr : list Event) :
  (lookup_finds_nothing env req ->
   dispatches (fst (sendPendingRequestEmail env req tr)) = dispatches tr)
  /\ (lookup_returns_nothing env req ->
      dispatches (fst (sendPendingRequestEmail env req tr)) = dispatches tr
      /\ snd (sendPendingRequestEmail env req tr) = Normal None).
Proof.
  split.
  - apply sendPendingRequestEmail_no_dispatch.
  - apply sendPendingRequestEmail_nothing.
Qed.

Lemma C6_pending_lookup_nothing_witness :
  selectById Sample.env 99%N = Normal None
  /\ dispatches
       (fst (sendPendingRequestEmail Sample.env Sample.request_unknown_user []))
     = []
  /\ snd (sendPendingRequestEmail Sample.env Sample.request_unknown_user [])
     = Normal None.
Proof.
  split; [reflexivity |].
  apply (C6_pending_lookup_nothing Sample.env Sample.request_unknown_user []).
  left. exists None, (Some Sample.roma_new).
  split; [reflexivity |]. split; [reflexivity |]. now left.
Defined.

(** C6 as it is stated fails: the lookup of the requesting user returns
    nothing, the lookup of the trip, made before the result of the first is
    looked at, throws, and the function throws to its caller. *)
Lemma C6_counterexample :
  selectById Sample.env_db_down
    (Participation.id_user Sample.request_unknown_user) = Normal None
  /\ snd (sendPendingRequestEmail Sample.env_db_down Sample.request_unknown_user [])
     = Throw Sample.db_down
  /\ snd (sendPendingRequestEmail Sample.env_db_down Sample.request_unknown_user [])
     <> Normal None.
Proof.
  split; [reflexivity |]. split; [vm_compute; reflexivity |].
  vm_compute. discriminate.
Qed.

(** ** Tokens and links *)

Lemma pendingRequest_chain (env : Env) (req : Participation.t)
    (participant : User.t) (trip : Trip.t) (creator : User.t)
    (html startDate endDate acceptToken rejectToken : string) :
  (html
   |> str_replace "creatorName" (User.name creator)
   |> str_replace "userName" (User.name participant)
   |> str_replace "tripTitle" (Trip.title trip)
   |> str_replace "startDate" startDate
   |> str_replace "endDate" endDate
   |> str_replace "userMessage" (userMessage (Participation.message req))
   |> str_replace "appUrl"
        (or_else (FRONTEND_URL env) "http://localhost:3000" ++ "/requests")
   |> str_replace "accepted"
        (or_else (API_BASE_URL env) "http://localhost:3000" ++ "/api/participants/"
         ++ N_to_string (Participation.id_participation req) ++ "/action?token="
         ++ acceptToken)
   |> str_replace "rejected"
        (or_else (API_BASE_URL env) "http://localhost:3000" ++ "/api/participants/"
         ++ N_to_string (Participation.id_participation req) ++ "/action?token="
         ++ rejectToken))
  = render
      (pendingRequestVars env req participant trip creator
         startDate endDate acceptToken rejectToken) html.
Proof. reflexivity. Qed.

Example verify_mail_text :
  dispatches (fst (sendVerifyEmailTo Sample.env Sample.ana []))
  = [{| Mail.from := Some "viajes@gmail.com";
        Mail.to := "ana@example.com";
        Mail.subject := "Verificación de email - Viajes Compartidos";
        Mail.html :=
          "<a href='https://api.example.com/api/auth/verify?token=verify-2.1d.s3cr3t'>Verificar</a>" |}].
Proof. vm_compute. reflexivity. Qed.

Example pending_mail_text :
  map Mail.html
    (dispatches (fst (sendPendingRequestEmail Sample.env Sample.request [])))
  = ["<p>Carla: Ana pide unirse a Roma ([2024-06-01]-[2024-06-08]): Sin mensaje https://api.example.com/api/participants/5/action?token=accepted-5.7d.s3cr3t https://api.example.com/api/participants/5/action?token=rejected-5.7d.s3cr3t http://localhost:3000/requests</p>"].
Proof. vm_compute. reflexivity. Qed.

(** * Further properties of the module *)

(** ** The replacement loop on arbitrary text *)

Lemma string_app_nil_r (s : string) : s ++ "" = s.
Proof. induction s as [|c s IH]; simpl; [reflexivity | now rewrite IH]. Qed.

Lemma strip_prefix_eq (p : string) :
  forall s r, strip_prefix p s = Some r -> s = p ++ r.
Proof.
  induction p as [|a p IH]; intros s r H; simpl in *.
  - now inversion H.
  - destruct s as [|b s]; [discriminate |].
    destruct (Ascii.eqb_spec a b) as [->|]; [| discriminate].
    simpl. now rewrite (IH _ _ H).
Qed.

Lemma occurs_skip (tok : string) (c : ascii) (s : string) :
  strip_prefix tok (String c s) = None ->
  occurs tok (String c s) = occurs tok s.
Proof. intros H. cbn [occurs]. now rewrite H. Qed.

Lemma occurs_false_inv (tok : string) (c : ascii) (s : string) :
  occurs tok (String c s) = false ->
  strip_prefix tok (String c s) = None /\ occurs tok s = false.
Proof.
  cbn [occurs]. destruct (strip_prefix tok (String c s)); [discriminate |].
  now split.
Qed.

Lemma scan_absent (tok repl : string) (s : string) :
  forall before, occurs tok s = false -> scan tok repl before s = s.
Proof.
  induction s as [|c s IH]; intros before H; [reflexivity |].
  apply occurs_false_inv in H as [Hp Hs].
  rewrite scan_skip by assumption. now rewrite IH.
Qed.

(** X1. A [replace] call for a placeholder that does not occur in the text
    returns the text as it is, whatever the value: a template without the
    token is no error and is not touched. *)
Theorem X1_replace_absent_token (key value s : string) :
  occurs (placeholder key) s = false ->
  str_replace key value s = s.
Proof. intros H. now apply scan_absent. Qed.

Lemma X1_replace_absent_token_witness :
  occurs (placeholder "tripTitle") Sample.verify = false
  /\ str_replace "tripTitle" "Roma $& $$" Sample.verify = Sample.verify.
Proof.
  split; [vm_compute; reflexivity |].
  apply (X1_replace_absent_token "tripTitle" "Roma $& $$" Sample.verify).
  vm_compute. reflexivity.
Defined.

Lemma replace_from_matched (tok : string) (fuel : nat) :
  forall before s, replace_from fuel tok "$&" before s = s.
Proof.
  induction fuel as [|fuel IH]; intros before s; [reflexivity |].
  destruct s as [|c s]; [reflexivity |].
  cbn [replace_from].
  destruct (strip_prefix tok (String c s)) as [after|] eqn:Hp.
  - change (getSubstitution tok before after "$&") with (tok ++ "").
    rewrite IH, string_app_nil_r. symmetry. now apply strip_prefix_eq.
  - now rewrite IH.
Qed.

(** X2. The value [$&] is not inserted: as a replacement pattern it stands
    for the matched text, so a [replace] call with it gives back the input,
    every placeholder still in place. *)
Theorem X2_replace_with_matched_text (key s : string) :
  str_replace key "$&" s = s.
Proof. apply replace_from_matched. Qed.

(** ** Values with harmless dollar signs *)

Lemma getSubstitution_safe (matched before after repl : string) :
  dollars_safe repl = true ->
  getSubstitution matched before after repl = repl.
Proof.
  induction repl as [|c r IH]; [reflexivity |].
  cbn [dollars_safe getSubstitution]. intros H.
  apply andb_prop in H as [Hc Hr]. rewrite (IH Hr).
  destruct (Ascii.eqb c "$"); [| reflexivity].
  destruct r as [|d r']; [reflexivity |].
  apply negb_true_iff in Hc.
  apply orb_false_elim in Hc as [Hc Hq]. apply orb_false_elim in Hc as [Hc Hb].
  apply orb_false_elim in Hc as [Hd Ha].
  now rewrite Hd, Ha, Hb, Hq.
Qed.

Lemma no_dollar_safe (v : string) : no_char "$" v = true -> dollars_safe v = true.
Proof.
  induction v as [|c r IH]; [reflexivity |].
  cbn [no_char dollars_safe]. intros H. apply andb_prop in H as [Hc Hr].
  apply negb_true_iff in Hc. now rewrite Hc, (IH Hr).
Qed.

Lemma scan_flatten_safe (k v : string) (segs : list Segment) :
  key_ok k = true -> dollars_safe v = true ->
  forallb segment_ok segs = true ->
  forall before,
    scan (placeholder k) v before (flatten segs)
    = flatten (map (substitute [(k, v)]) segs).
Proof.
  intros Hk Hv. induction segs as [|seg segs IH]; intros Hs before.
  - reflexivity.
  - simpl in Hs. apply andb_prop in Hs as [Hseg Hs].
    destruct seg as [text|key]; simpl in Hseg.
    + cbn [flatten map substitute]. rewrite scan_literal by assumption.
      now rewrite IH.
    + cbn [flatten map substitute]. rewrite lookup_single.
      destruct (String.eqb_spec k key) as [<-|Hne].
      * rewrite (scan_match _ _ (placeholder_nonempty k) _ _ (flatten segs))
          by apply strip_prefix_app.
        rewrite getSubstitution_safe by assumption. simpl. now rewrite IH.
      * rewrite scan_other_token by assumption. cbn [flatten]. now rewrite IH.
Qed.

Lemma substitute_all_ok (vars : list (string * string)) (segs : list Segment) :
  vars_safe vars = true ->
  forallb segment_ok segs = true ->
  forallb segment_ok (map (substitute vars) segs) = true.
Proof.
  intros Hvars. induction segs as [|seg segs IH]; [reflexivity |].
  simpl. intros H. apply andb_prop in H as [Hseg Hs].
  rewrite (IH Hs), andb_true_r.
  destruct seg as [text|key]; [assumption |].
  simpl. destruct (lookup key vars) as [v|] eqn:Hl; [| assumption].
  simpl. clear - Hvars Hl.
  induction vars as [|[k w] vars IHv]; [discriminate |].
  simpl in Hvars, Hl. apply andb_prop in Hvars as [Hkw Hvars].
  destruct (k =? key).
  - inversion Hl; subst w. apply andb_prop in Hkw as [_ Hw].
    now apply andb_prop in Hw.
  - now apply IHv.
Qed.

Lemma render_flatten_safe (vars : list (string * string)) :
  forall segs,
    vars_safe vars = true ->
    forallb segment_ok segs = true ->
    render vars (flatten segs) = render_spec vars segs.
Proof.
  unfold render_spec.
  induction vars as [|[k v] vars IH]; intros segs Hvars Hsegs.
  - simpl. f_equal. symmetry. rewrite <- (map_id segs) at 2.
    apply map_ext. now intros [text|key].
  - pose proof Hvars as Hall.
    simpl in Hvars. apply andb_prop in Hvars as [Hkv Hvars].
    apply andb_prop in Hkv as [Hk Hv]. apply andb_prop in Hv as [Hd Hb].
    change (render ((k, v) :: vars) (flatten segs))
      with (render vars (str_replace k v (flatten segs))).
    unfold str_replace. rewrite scan_flatten_safe by assumption.
    rewrite IH.
    + rewrite map_map. f_equal. apply map_ext. intros seg. apply substitute_cons.
    + assumption.
    + apply (substitute_all_ok [(k, v)]); [| assumption].
      unfold vars_safe, value_safe. cbn [forallb fst snd].
      now rewrite Hk, Hd, Hb.
Qed.

(** X3. A dollar sign in a value is harmless unless a dollar sign, an
    ampersand, a backquote or a quote follows it: for values whose dollar
    signs are all harmless (and, as before, templates and values without
    [{{] and identifier keys) the chain of [replace] calls puts the value of
    each key in the place of its tokens and changes nothing else. *)
Theorem X3_render_with_harmless_dollars (vars : list (string * string))
    (segs : list Segment) :
  vars_safe vars = true ->
  forallb segment_ok segs = true ->
  render vars (flatten segs) = render_spec vars segs.
Proof. apply render_flatten_safe. Qed.

Lemma X3_render_with_harmless_dollars_witness :
  let vars := [("tripTitle", "Roma por 50$ (US$ 55)"); ("userMessage", "$1 $ $")] in
  let segs := [Lit "<b>"; Tok "tripTitle"; Lit "</b>: "; Tok "userMessage"] in
  vars_safe vars = true
  /\ forallb segment_ok segs = true
  /\ render vars (flatten segs) = "<b>Roma por 50$ (US$ 55)</b>: $1 $ $".
Proof.
  intros vars segs. split; [reflexivity |]. split; [reflexivity |].
  rewrite (X3_render_with_harmless_dollars vars segs); reflexivity.
Defined.

(** ** Rendering twice, and in another order *)

Lemma substitute_twice (vars : list (string * string)) (seg : Segment) :
  substitute vars (substitute vars seg) = substitute vars seg.
Proof.
  destruct seg as [text|key]; [reflexivity |].
  simpl. destruct (lookup key vars) eqn:Hl; [reflexivity |].
  simpl. now rewrite Hl.
Qed.

(** X4. Rendering is idempotent on such templates and mappings: a second
    pass of the same chain of [replace] calls over a rendered text changes
    nothing. *)
Theorem X4_render_idempotent (vars : list (string * string)) (segs : list Segment) :
  vars_safe vars = true ->
  forallb segment_ok segs = true ->
  render vars (render vars (flatten segs)) = render vars (flatten segs).
Proof.
  intros Hvars Hsegs.
  rewrite (render_flatten_safe vars segs Hvars Hsegs). unfold render_spec.
  rewrite render_flatten_safe
    by (try assumption; now apply substitute_all_ok).
  unfold render_spec. rewrite map_map. f_equal.
  apply map_ext. intros seg. apply substitute_twice.
Qed.

Lemma X4_render_idempotent_witness :
  let vars := [("participantName", "Ana"); ("tripTitle", "Roma 50$")] in
  let segs := [Lit "Hola "; Tok "participantName"; Lit ": "; Tok "tripTitle";
               Tok "firma"] in
  vars_safe vars = true
  /\ forallb segment_ok segs = true
  /\ render vars (render vars (flatten segs)) = "Hola Ana: Roma 50${{firma}}".
Proof.
  intros vars segs. split; [reflexivity |]. split; [reflexivity |].
  rewrite (X4_render_idempotent vars segs); reflexivity.
Defined.

Lemma lookup_not_in (key : string) (vars : list (string * string)) :
  ~ In key (map fst vars) -> lookup key vars = None.
Proof.
  induction vars as [|[k v] vars IH]; [reflexivity |].
  simpl. intros H. destruct (String.eqb_spec k key) as [->|].
  - exfalso. apply H. now left.
  - apply IH. intros Hin. apply H. now right.
Qed.

Lemma lookup_permutation (vars vars' : list (string * string)) :
  Permutation vars vars' ->
  NoDup (map fst vars) ->
  forall key, lookup key vars = lookup key vars'.
Proof.
  induction 1 as [| [k v] l l' Hp IH | [k1 v1] [k2 v2] l | l l' l'' Hp1 IH1 Hp2 IH2];
    intros Hnd key.
  - reflexivity.
  - simpl. inversion Hnd; subst. now rewrite IH.
  - simpl. destruct (String.eqb_spec k1 key) as [->|];
      destruct (String.eqb_spec k2 key) as [->|]; try reflexivity.
    simpl in Hnd. inversion Hnd as [|? ? Hnotin _]; subst.
    exfalso. apply Hnotin. now left.
  - rewrite IH1 by assumption. apply IH2.
    apply (Permutation_NoDup (Permutation_map fst Hp1) Hnd).
Qed.

Lemma vars_safe_permutation (vars vars' : list (string * string)) :
  Permutation vars vars' -> vars_safe vars = true -> vars_safe vars' = true.
Proof.
  unfold vars_safe. intros Hp H. rewrite forallb_forall in *.
  intros kv Hin. apply H. apply (Permutation_in _ (Permutation_sym Hp) Hin).
Qed.

(** X5. When no key is given twice, the order of the [replace] calls does
    not matter on such templates and mappings: the calls made in any other
    order give the same text. *)
Theorem X5_render_order_irrelevant (vars vars' : list (string * string))
    (segs : list Segment) :
  Permutation vars vars' ->
  NoDup (map fst vars) ->
  vars_safe vars = true ->
  forallb segment_ok segs = true ->
  render vars' (flatten segs) = render vars (flatten segs).
Proof.
  intros Hp Hnd Hvars Hsegs.
  rewrite (render_flatten_safe vars segs Hvars Hsegs).
  rewrite (render_flatten_safe vars' segs
             (vars_safe_permutation vars vars' Hp Hvars) Hsegs).
  unfold render_spec. f_equal. apply map_ext. intros [text|key]; [reflexivity |].
  simpl. now rewrite (lookup_permutation vars vars' Hp Hnd key).
Qed.

Lemma X5_render_order_irrelevant_witness :
  let segs := [Lit "Hola "; Tok "participantName"; Lit ": "; Tok "tripTitle"] in
  render [("tripTitle", "Roma"); ("participantName", "Ana")] (flatten segs)
  = render [("participantName", "Ana"); ("tripTitle", "Roma")] (flatten segs).
Proof.
  intros segs.
  apply (X5_render_order_irrelevant
           [("participantName", "Ana"); ("tripTitle", "Roma")]
           [("tripTitle", "Roma"); ("participantName", "Ana")] segs).
  - apply perm_swap.
  - repeat constructor; simpl; intuition discriminate.
  - reflexivity.
  - reflexivity.
Defined.

(** ** Tokens left after rendering *)

Lemma occurs_literal (key : string) (s : string) :
  forall rest,
    single_braces s = true ->
    occurs (placeholder key) (s ++ rest) = occurs (placeholder key) rest.
Proof.
  induction s as [|c s IH]; intros rest H; [reflexivity |].
  change (String c s ++ rest) with (String c (s ++ rest)).
  rewrite occurs_skip by (apply (strip_placeholder_literal key c s rest H)).
  apply IH. apply (single_braces_tail c s H).
Qed.

Lemma occurs_other_token (k k' rest : string) :
  key_ok k = true -> key_ok k' = true -> k <> k' ->
  occurs (placeholder k) (placeholder k' ++ rest) = occurs (placeholder k) rest.
Proof.
  intros Hk Hk' Hne.
  apply key_ok_no_brace in Hk as [_ Hk].
  apply key_ok_no_brace in Hk' as [Hk'o Hk'c].
  unfold placeholder at 2. rewrite string_app_assoc.
  change ("{{" ++ (k' ++ "}}") ++ rest)
    with (String "{" (String "{" (k' ++ "}}") ++ rest)).
  rewrite occurs_skip.
  - now rewrite occurs_literal by now apply single_braces_key.
  - unfold placeholder. simpl. rewrite ?Ascii.eqb_refl.
    rewrite string_app_assoc. now apply strip_key_mismatch.
Qed.

Lemma occurs_flatten (k : string) (segs : list Segment) :
  key_ok k = true ->
  forallb segment_ok segs = true ->
  ~ In (Tok k) segs ->
  occurs (placeholder k) (flatten segs) = false.
Proof.
  intros Hk. induction segs as [|seg segs IH]; intros Hs Hnot; [reflexivity |].
  simpl in Hs. apply andb_prop in Hs as [Hseg Hs].
  assert (Hrest : ~ In (Tok k) segs) by (intros Hin; apply Hnot; now right).
  destruct seg as [text|key]; simpl in Hseg; cbn [flatten].
  - rewrite occurs_literal by assumption. now apply IH.
  - rewrite occurs_other_token; [now apply IH | assumption | assumption |].
    intros ->. apply Hnot. now left.
Qed.

Lemma lookup_in (k v : string) (vars : list (string * string)) :
  In (k, v) vars -> lookup k vars <> None.
Proof.
  induction vars as [|[k' v'] vars IH]; [intros [] |].
  simpl. intros [Heq | Hin].
  - inversion Heq; subst. now rewrite String.eqb_refl.
  - destruct (k' =? k); [discriminate | now apply IH].
Qed.

Lemma vars_safe_key (k v : string) (vars : list (string * string)) :
  vars_safe vars = true -> In (k, v) vars -> key_ok k = true.
Proof.
  unfold vars_safe. rewrite forallb_forall. intros H Hin.
  specialize (H _ Hin). now apply andb_prop in H.
Qed.

(** X6. On such templates and mappings no placeholder of a key of the
    mapping is left in the rendered text. *)
Theorem X6_no_mapped_token_left (vars : list (string * string))
    (segs : list Segment) (k v : string) :
  vars_safe vars = true ->
  forallb segment_ok segs = true ->
  In (k, v) vars ->
  occurs (placeholder k) (render vars (flatten segs)) = false.
Proof.
  intros Hvars Hsegs Hin.
  rewrite (render_flatten_safe vars segs Hvars Hsegs). unfold render_spec.
  apply occurs_flatten.
  - apply (vars_safe_key k v vars Hvars Hin).
  - now apply substitute_all_ok.
  - rewrite in_map_iff. intros ([text|key] & Heq & _); simpl in Heq.
    + discriminate.
    + destruct (lookup key vars) eqn:Hl; [discriminate |].
      inversion Heq; subst key. now apply (lookup_in k v vars Hin).
Qed.

Lemma X6_no_mapped_token_left_witness :
  occurs (placeholder "tripTitle")
    (render [("participantName", "Ana"); ("tripTitle", "Roma")]
       (flatten [Lit "Hola "; Tok "participantName"; Lit ": "; Tok "tripTitle";
                 Tok "tripTitle"])) = false.
Proof.
  apply (X6_no_mapped_token_left
           [("participantName", "Ana"); ("tripTitle", "Roma")]
           [Lit "Hola "; Tok "participantName"; Lit ": "; Tok "tripTitle";
            Tok "tripTitle"] "tripTitle" "Roma").
  - reflexivity.
  - reflexivity.
  - simpl. right. left. reflexivity.
Defined.

(** ** sendTripUpdateNotification in every environment *)

Lemma consoles_app (tr1 tr2 : list Event) :
  consoles (tr1 ++ tr2)%list = (consoles tr1 ++ consoles tr2)%list.
Proof.
  induction tr1 as [|[m|p d|l a] tr1 IH]; simpl; [reflexivity | | |]; now rewrite IH.
Qed.

Lemma consoles_sent (mails : list Mail.t) : consoles (map EvSendMail mails) = [].
Proof. induction mails as [|m mails IH]; simpl; [reflexivity | exact IH]. Qed.

Lemma dates_cases (env : Env) (oldTrip updatedTrip : Trip.t) :
  (exists a b c d,
      formatDate env (Trip.start_date updatedTrip) = Normal a
      /\ formatDate env (Trip.end_date updatedTrip) = Normal b
      /\ formatDate env (Trip.start_date oldTrip) = Normal c
      /\ formatDate env (Trip.end_date oldTrip) = Normal d)
  \/ exists e, date_format_throws env oldTrip updatedTrip e.
Proof.
  unfold date_format_throws.
  destruct (formatDate env (Trip.start_date updatedTrip)) as [a|e] eqn:Ha;
    [| right; exists e; now left].
  destruct (formatDate env (Trip.end_date updatedTrip)) as [b|e] eqn:Hb;
    [| right; exists e; right; left; now exists a].
  destruct (formatDate env (Trip.start_date oldTrip)) as [c|e] eqn:Hc;
    [| right; exists e; right; right; left; now exists a, b].
  destruct (formatDate env (Trip.end_date oldTrip)) as [d|e] eqn:Hd;
    [| right; exists e; right; right; right; now exists a, b, c].
  left. now exists a, b, c, d.
Qed.

(** The callback throws before it submits anything when a date cannot be
    formatted. *)
Lemma notifyParticipant_throws (env : Env) (t : Transporter)
    (htmlTemplate url : string) (oldTrip updatedTrip : Trip.t) (e : Error)
    (participant : User.t) (tr : list Event) :
  date_format_throws env oldTrip updatedTrip e ->
  notifyParticipant env t htmlTemplate url oldTrip updatedTrip participant tr
  = (tr, Throw e).
Proof.
  unfold notifyParticipant, bind, call.
  intros [Ha | [(a & Ha & Hb) | [(a & b & Ha & Hb & Hc) | (a & b & c & Ha & Hb & Hc & Hd)]]];
    rewrite ?Ha, ?Hb, ?Hc, ?Hd; reflexivity.
Qed.

Lemma sendTripUpdateNotification_template_failure (env : Env) (t : Transporter)
    (participants : list User.t) (oldTrip updatedTrip : Trip.t)
    (creatorEmail : string) (e : Error) (tr : list Event) :
  transporter env = Some t ->
  participants <> [] ->
  readFile env (templatePath "datesModified.html") = Throw e ->
  sendTripUpdateNotification env participants oldTrip updatedTrip creatorEmail tr
  = ((tr ++ [EvConsole Level_error
               ["❌ Error crítico en sendTripUpdateNotification:"; message e];
             EvConsole Level_error ["Stack:"; stack e]])%list,
     Normal None).
Proof.
  intros Ht Hne Htpl. unfold sendTripUpdateNotification. rewrite Ht.
  destruct participants as [|p ps]; [congruence |].
  cbn [length Nat.eqb].
  unfold try_catch, loadTemplate, call. unfold bind at 1. rewrite Htpl.
  unfold bind, console, emit, ret. now rewrite <- app_assoc.
Qed.

Lemma sendTripUpdateNotification_date_failure (env : Env) (t : Transporter)
    (participants : list User.t) (oldTrip updatedTrip : Trip.t)
    (creatorEmail htmlTemplate : string) (e : Error) (tr : list Event) :
  transporter env = Some t ->
  readFile env (templatePath "datesModified.html") = Normal htmlTemplate ->
  filter (fun p => negb (User.email p =? creatorEmail)) participants <> [] ->
  date_format_throws env oldTrip updatedTrip e ->
  sendTripUpdateNotification env participants oldTrip updatedTrip creatorEmail tr
  = ((tr ++ [EvConsole Level_error
               ["❌ Error crítico en sendTripUpdateNotification:"; message e];
             EvConsole Level_error ["Stack:"; stack e]])%list,
     Normal None).
Proof.
  intros Ht Htpl Hrec Hdate. unfold sendTripUpdateNotification. rewrite Ht.
  assert (Hp : (length participants =? 0)%nat = false)
    by (destruct participants; [now contradiction Hrec | reflexivity]).
  rewrite Hp.
  unfold try_catch, loadTemplate, call. unfold bind at 1. rewrite Htpl.
  destruct (filter _ participants) as [|r rs] eqn:Hf; [congruence |].
  cbn [length Nat.eqb mapM]. unfold bind at 1. unfold bind at 1.
  rewrite (notifyParticipant_throws env t htmlTemplate _ oldTrip updatedTrip e r tr Hdate).
  unfold bind, console, emit, ret. now rewrite <- app_assoc.
Qed.

(** Either nothing is dispatched and [undefined] is returned, or every
    recipient gets its mail and the tally is returned. *)
Lemma sendTripUpdateNotification_cases (env : Env) (participants : list User.t)
    (oldTrip updatedTrip : Trip.t) (creatorEmail : string) (tr : list Event) :
  let recipients :=
    filter (fun p => negb (User.email p =? creatorEmail)) participants in
  let run :=
    sendTripUpdateNotification env participants oldTrip updatedTrip
      creatorEmail tr in
  (dispatches (fst run) = dispatches tr /\ snd run = Normal None)
  \/ (exists t htmlTemplate a b c d,
        recipients <> []
        /\ dispatches (fst run)
           = (dispatches tr
              ++ map (tripUpdateMail env htmlTemplate updatedTrip a b c d)
                   recipients)%list
        /\ snd run
           = Normal
               (Some
                  {| Stats.sent :=
                       length
                         (filter is_fulfilled
                            (settle_all t (length (dispatches tr))
                               (map (tripUpdateMail env htmlTemplate updatedTrip
                                       a b c d) recipients)));
                     Stats.failed :=
                       length
                         (filter is_rejected
                            (settle_all t (length (dispatches tr))
                               (map (tripUpdateMail env htmlTemplate updatedTrip
                                       a b c d) recipients)));
                     Stats.total := length recipients |})).
Proof.
  intros recipients run. unfold run.
  assert (Hlogs : forall e : Error,
             dispatches
               (tr ++ [EvConsole Level_error
                         ["❌ Error crítico en sendTripUpdateNotification:"; message e];
                       EvConsole Level_error ["Stack:"; stack e]])%list
             = dispatches tr)
    by (intros e; rewrite dispatches_app; simpl; now rewrite app_nil_r).
  destruct (transporter env) as [t|] eqn:Ht.
  2:{ left. rewrite sendTripUpdateNotification_unavailable by now left.
      cbn [fst snd]. rewrite dispatches_app. simpl. now rewrite app_nil_r. }
  assert (Hcase : participants = [] \/ participants <> [])
    by (clear; destruct participants; [now left | right; discriminate]).
  destruct Hcase as [Hnil | Hne].
  { left. rewrite sendTripUpdateNotification_unavailable by now right.
    cbn [fst snd]. rewrite dispatches_app. simpl. now rewrite app_nil_r. }
  destruct (readFile env (templatePath "datesModified.html")) as [tpl|e] eqn:Htpl.
  2:{ left.
      rewrite (sendTripUpdateNotification_template_failure env t participants
                 oldTrip updatedTrip creatorEmail e tr Ht Hne Htpl).
      cbn [fst snd]. now rewrite Hlogs. }
  assert (Hrcase : recipients = [] \/ recipients <> [])
    by (clearbody recipients; clear; destruct recipients;
        [now left | right; discriminate]).
  destruct Hrcase as [Hrec | Hrne].
  { left.
    rewrite (sendTripUpdateNotification_only_creator env t participants oldTrip
               updatedTrip creatorEmail tpl tr Ht Htpl Hne Hrec).
    cbn [fst snd]. rewrite dispatches_app. simpl. now rewrite app_nil_r. }
  destruct (dates_cases env oldTrip updatedTrip)
    as [(a & b & c & d & Ha & Hb & Hc & Hd) | (e & Hdate)].
  - right. exists t, tpl, a, b, c, d.
    split; [exact Hrne |].
    apply (sendTripUpdateNotification_run env t oldTrip updatedTrip tpl a b c d
             Ha Hb Hc Hd participants creatorEmail tr Ht Htpl Hrne).
  - left.
    rewrite (sendTripUpdateNotification_date_failure env t participants oldTrip
               updatedTrip creatorEmail tpl e tr Ht Htpl Hrne Hdate).
    cbn [fst snd]. now rewrite Hlogs.
Qed.

Lemma settled_partition (results : list Settled) :
  length (filter is_fulfilled results) + length (filter is_rejected results)
  = length results.
Proof.
  induction results as [|[v|e] results IH]; simpl; [reflexivity | |]; lia.
Qed.

Lemma filter_length_le {A : Type} (f : A -> bool) (l : list A) :
  length (filter f l) <= length l.
Proof.
  induction l as [|a l IH]; simpl; [lia |]. destruct (f a); simpl; lia.
Qed.

(** X7. Whatever the environment does, [sendTripUpdateNotification] never
    writes to the creator: every mail it submits goes to the email of a
    participant, and that email is not [creatorEmail]. *)
Theorem X7_trip_update_never_mails_creator (env : Env)
    (participants : list User.t) (oldTrip updatedTrip : Trip.t)
    (creatorEmail : string) (tr : list Event) :
  exists mails,
    dispatches
      (fst (sendTripUpdateNotification env participants oldTrip updatedTrip
              creatorEmail tr))
    = (dispatches tr ++ mails)%list
    /\ Forall
         (fun mail =>
            Mail.to mail <> creatorEmail
            /\ exists p, In p participants /\ Mail.to mail = User.email p)
         mails.
Proof.
  destruct (sendTripUpdateNotification_cases env participants oldTrip updatedTrip
              creatorEmail tr)
    as [[Hd _] | (t & tpl & a & b & c & d & _ & Hd & _)].
  - exists []. rewrite app_nil_r. split; [exact Hd | constructor].
  - eexists. split; [exact Hd |].
    rewrite Forall_forall. intros mail Hin.
    apply in_map_iff in Hin as (p & <- & Hp).
    apply filter_In in Hp as [Hp Hneq].
    apply negb_true_iff, String.eqb_neq in Hneq.
    split; [exact Hneq | now exists p].
Qed.

(** X8. The value returned tells what was submitted: when
    [sendTripUpdateNotification] returns [undefined] it has submitted no
    dispatch, and when it returns a tally, [total] is the number of
    dispatches it has submitted, [sent + failed = total], and [total] is at
    least 1 and at most the number of participants. It never throws. *)
Theorem X8_trip_update_result_counts_dispatches (env : Env)
    (participants : list User.t) (oldTrip updatedTrip : Trip.t)
    (creatorEmail : string) (tr : list Event) :
  let run :=
    sendTripUpdateNotification env participants oldTrip updatedTrip
      creatorEmail tr in
  exists mails,
    dispatches (fst run) = (dispatches tr ++ mails)%list
    /\ ((snd run = Normal None /\ mails = [])
        \/ exists stats,
             snd run = Normal (Some stats)
             /\ Stats.total stats = length mails
             /\ Stats.sent stats + Stats.failed stats = Stats.total stats
             /\ 1 <= Stats.total stats <= length participants).
Proof.
  intros run. unfold run.
  destruct (sendTripUpdateNotification_cases env participants oldTrip updatedTrip
              creatorEmail tr)
    as [[Hd Hr] | (t & tpl & a & b & c & d & Hne & Hd & Hr)].
  - exists []. rewrite app_nil_r. split; [exact Hd | now left].
  - eexists. split; [exact Hd |]. right. eexists. split; [exact Hr |].
    cbn [Stats.total Stats.sent Stats.failed].
    rewrite settled_partition, settle_all_length, !length_map.
    split; [reflexivity |]. split; [reflexivity |]. split.
    + destruct (filter _ participants); [congruence | simpl; lia].
    + apply filter_length_le.
Qed.

(** X9. The template is loaded before the recipients are worked out: when
    it cannot be read, [sendTripUpdateNotification] submits nothing, writes
    the message and the stack of the error to the console and returns
    [undefined], also when every participant is the creator. *)
Theorem X9_trip_update_template_unreadable (env : Env) (t : Transporter)
    (participants : list User.t) (oldTrip updatedTrip : Trip.t)
    (creatorEmail : string) (e : Error) (tr : list Event) :
  transporter env = Some t ->
  participants <> [] ->
  readFile env (templatePath "datesModified.html") = Throw e ->
  let run :=
    sendTripUpdateNotification env participants oldTrip updatedTrip
      creatorEmail tr in
  dispatches (fst run) = dispatches tr
  /\ consoles (fst run) = (consoles tr ++ critical_error_log e)%list
  /\ snd run = Normal None.
Proof.
  intros Ht Hne Htpl run. unfold run.
  rewrite (sendTripUpdateNotification_template_failure env t participants oldTrip
             updatedTrip creatorEmail e tr Ht Hne Htpl).
  cbn [fst snd]. rewrite dispatches_app, consoles_app. simpl.
  now rewrite app_nil_r.
Qed.

Lemma X9_trip_update_template_unreadable_witness :
  let run :=
    sendTripUpdateNotification Faulty.env_no_templates [Sample.carla]
      Sample.roma_old Sample.roma_new "carla@example.com" [] in
  dispatches (fst run) = []
  /\ consoles (fst run) = critical_error_log Sample.enoent
  /\ snd run = Normal None.
Proof.
  apply (X9_trip_update_template_unreadable Faulty.env_no_templates Sample.smtp
           [Sample.carla] Sample.roma_old Sample.roma_new "carla@example.com"
           Sample.enoent []).
  - reflexivity.
  - discriminate.
  - reflexivity.
Defined.

(** X10. A batch is never submitted in part: when a date of the old or of
    the updated trip cannot be formatted, the first recipient already fails,
    so no mail at all is submitted; the error is written to the console and
    [undefined] is returned. *)
Theorem X10_trip_update_dates_unformattable (env : Env) (t : Transporter)
    (participants : list User.t) (oldTrip updatedTrip : Trip.t)
    (creatorEmail htmlTemplate : string) (e : Error) (tr : list Event) :
  transporter env = Some t ->
  readFile env (templatePath "datesModified.html") = Normal htmlTemplate ->
  filter (fun p => negb (User.email p =? creatorEmail)) participants <> [] ->
  date_format_throws env oldTrip updatedTrip e ->
  let run :=
    sendTripUpdateNotification env participants oldTrip updatedTrip
      creatorEmail tr in
  dispatches (fst run) = dispatches tr
  /\ consoles (fst run) = (consoles tr ++ critical_error_log e)%list
  /\ snd run = Normal None.
Proof.
  intros Ht Htpl Hrec Hdate run. unfold run.
  rewrite (sendTripUpdateNotification_date_failure env t participants oldTrip
             updatedTrip creatorEmail htmlTemplate e tr Ht Htpl Hrec Hdate).
  cbn [fst snd]. rewrite dispatches_app, consoles_app. simpl.
  now rewrite app_nil_r.
Qed.

Lemma X10_trip_update_dates_unformattable_witness :
  let run :=
    sendTripUpdateNotification Faulty.env_bad_dates
      [Sample.carla; Sample.ana; Sample.bea] Sample.roma_old Sample.roma_new
      "carla@example.com" [] in
  dispatches (fst run) = []
  /\ consoles (fst run) = critical_error_log Faulty.invalid_date
  /\ snd run = Normal None.
Proof.
  apply (X10_trip_update_dates_unformattable Faulty.env_bad_dates Sample.smtp
           [Sample.carla; Sample.ana; Sample.bea] Sample.roma_old Sample.roma_new
           "carla@example.com" Sample.datesModified Faulty.invalid_date []).
  - reflexivity.
  - reflexivity.
  - discriminate.
  - left. reflexivity.
Defined.

(** ** sendVerifyEmailTo in every environment *)

Section Verify.

Variables (env : Env) (transporter0 : Transporter) (userData : User.t).
Hypothesis available : transporter env = Some transporter0.

Lemma sendVerifyEmailTo_template_failure (e : Error) (tr : list Event) :
  readFile env (templatePath "verify.html") = Throw e ->
  sendVerifyEmailTo env userData tr
  = ((tr ++ [EvConsole Level_error
               ["❌ Error sending verification email:"; message e]])%list,
     Normal tt).
Proof using available.
  intros Htpl. unfold sendVerifyEmailTo. rewrite available.
  unfold try_catch, loadTemplate, call, bind. now rewrite Htpl.
Qed.

Lemma sendVerifyEmailTo_sign_failure (htmlTemplate : string) (e : Error)
    (tr : list Event) :
  readFile env (templatePath "verify.html") = Normal htmlTemplate ->
  sign env (VerifyPayload (User.id_user userData)) (SECRET_KEY env) "1d"
  = Throw e ->
  sendVerifyEmailTo env userData tr
  = ((tr ++ [EvSign (VerifyPayload (User.id_user userData)) "1d";
             EvConsole Level_error
               ["❌ Error sending verification email:"; message e]])%list,
     Normal tt).
Proof using available.
  intros Htpl Hsign. unfold sendVerifyEmailTo. rewrite available.
  unfold try_catch, loadTemplate, jwt_sign, call, bind, console, emit.
  rewrite Htpl, Hsign. now rewrite <- app_assoc.
Qed.

Lemma sendVerifyEmailTo_dispatched (htmlTemplate token : string)
    (tr : list Event) :
  readFile env (templatePath "verify.html") = Normal htmlTemplate ->
  sign env (VerifyPayload (User.id_user userData)) (SECRET_KEY env) "1d"
  = Normal token ->
  let mail := verifyMail env htmlTemplate token userData in
  sendVerifyEmailTo env userData tr
  = ((tr ++ [EvSign (VerifyPayload (User.id_user userData)) "1d";
             EvSendMail mail]
      ++ match deliver transporter0 (length (dispatches tr)) mail with
         | fulfilled _ => []
         | rejected reason =>
             [EvConsole Level_error
                ["❌ Error sending verification email:"; message reason]]
         end)%list,
     Normal tt).
Proof using available.
  intros Htpl Hsign mail. unfold sendVerifyEmailTo. rewrite available.
  unfold try_catch, loadTemplate, jwt_sign, call, bind, emit, sendMail.
  rewrite Htpl, Hsign.
  set (m := Mail.mk _ _ _ _). change m with mail. clear m. clearbody mail.
  rewrite dispatches_app. simpl dispatches. rewrite app_nil_r.
  destruct (deliver transporter0 (length (dispatches tr)) mail);
    unfold await, ret, throw, console, emit; rewrite <- !app_assoc; reflexivity.
Qed.

End Verify.

(** X11. In every environment [sendVerifyEmailTo] submits at most one
    dispatch: the verification mail, to the email of the user, exactly when
    the transporter is there, the template loads and the token is signed;
    in every other case it submits nothing. *)
Theorem X11_verify_dispatches_once_or_never (env : Env) (userData : User.t)
    (tr : list Event) :
  let run := sendVerifyEmailTo env userData tr in
  (exists t htmlTemplate token,
      transporter env = Some t
      /\ readFile env (templatePath "verify.html") = Normal htmlTemplate
      /\ sign env (VerifyPayload (User.id_user userData)) (SECRET_KEY env) "1d"
         = Normal token
      /\ dispatches (fst run)
         = (dispatches tr ++ [verifyMail env htmlTemplate token userData])%list
      /\ Mail.to (verifyMail env htmlTemplate token userData)
         = User.email userData)
  \/ (dispatches (fst run) = dispatches tr
      /\ (transporter env = None
          \/ (exists e, readFile env (templatePath "verify.html") = Throw e)
          \/ (exists e,
                sign env (VerifyPayload (User.id_user userData)) (SECRET_KEY env)
                  "1d" = Throw e))).
Proof.
  intros run. unfold run.
  destruct (transporter env) as [t|] eqn:Ht.
  2:{ right. unfold sendVerifyEmailTo. rewrite Ht. split; [reflexivity | now left]. }
  destruct (readFile env (templatePath "verify.html")) as [tpl|e] eqn:Htpl.
  2:{ right. rewrite (sendVerifyEmailTo_template_failure env t userData Ht e tr Htpl).
      cbn [fst]. rewrite dispatches_app. simpl. rewrite app_nil_r.
      split; [reflexivity |]. right. left. now exists e. }
  destruct (sign env (VerifyPayload (User.id_user userData)) (SECRET_KEY env) "1d")
    as [token|e] eqn:Hsign.
  - left. exists t, tpl, token. repeat (split; [assumption || reflexivity |]).
    split; [| reflexivity].
    rewrite (sendVerifyEmailTo_dispatched env t userData Ht tpl token tr Htpl Hsign).
    cbn [fst]. rewrite !dispatches_app. simpl.
    destruct (deliver t _ _); simpl; now rewrite ?app_nil_r.
  - right.
    rewrite (sendVerifyEmailTo_sign_failure env t userData Ht tpl e tr Htpl Hsign).
    cbn [fst]. rewrite dispatches_app. simpl. rewrite app_nil_r.
    split; [reflexivity |]. right. right. now exists e.
Qed.

(** X12. [sendVerifyEmailTo] reads the template before it signs, and tells
    a failure to the console only: when the template cannot be read no
    token is signed; and the console gets one error entry, with the message
    of the error, when the template load, the signature or the dispatch
    fails, and no entry when the mail is delivered. *)
Theorem X12_verify_failure_is_logged_once (env : Env) (t : Transporter)
    (userData : User.t) (tr : list Event) :
  transporter env = Some t ->
  let run := sendVerifyEmailTo env userData tr in
  let logged (e : Error) :=
    (consoles tr
     ++ [(Level_error, ["❌ Error sending verification email:"; message e])])%list in
  (forall e,
      readFile env (templatePath "verify.html") = Throw e ->
      signatures (fst run) = signatures tr /\ consoles (fst run) = logged e)
  /\ (forall htmlTemplate e,
        readFile env (templatePath "verify.html") = Normal htmlTemplate ->
        sign env (VerifyPayload (User.id_user userData)) (SECRET_KEY env) "1d"
        = Throw e ->
        consoles (fst run) = logged e)
  /\ (forall htmlTemplate token,
        readFile env (templatePath "verify.html") = Normal htmlTemplate ->
        sign env (VerifyPayload (User.id_user userData)) (SECRET_KEY env) "1d"
        = Normal token ->
        consoles (fst run)
        = match deliver t (length (dispatches tr))
                  (verifyMail env htmlTemplate token userData) with
          | fulfilled _ => consoles tr
          | rejected reason => logged reason
          end).
Proof.
  intros Ht run logged. unfold run, logged. split; [| split].
  - intros e Htpl.
    rewrite (sendVerifyEmailTo_template_failure env t userData Ht e tr Htpl).
    cbn [fst]. rewrite signatures_app, consoles_app. simpl.
    now rewrite app_nil_r.
  - intros tpl e Htpl Hsign.
    rewrite (sendVerifyEmailTo_sign_failure env t userData Ht tpl e tr Htpl Hsign).
    cbn [fst]. rewrite consoles_app. reflexivity.
  - intros tpl token Htpl Hsign.
    rewrite (sendVerifyEmailTo_dispatched env t userData Ht tpl token tr Htpl Hsign).
    cbn [fst]. rewrite !consoles_app. simpl.
    destruct (deliver t _ _); simpl; now rewrite ?app_nil_r.
Qed.

Lemma X12_verify_failure_is_logged_once_witness :
  consoles (fst (sendVerifyEmailTo Faulty.env_no_secret Sample.ana []))
  = [(Level_error,
      ["❌ Error sending verification email:";
       "secretOrPrivateKey must have a value"])]
  /\ consoles (fst (sendVerifyEmailTo Faulty.env_no_templates Sample.ana []))
     = [(Level_error,
         ["❌ Error sending verification email:"; "ENOENT: no such file"])].
Proof.
  split.
  - destruct (X12_verify_failure_is_logged_once Faulty.env_no_secret Sample.smtp
                Sample.ana [] eq_refl) as (_ & Hsign & _).
    apply (Hsign Sample.verify Sample.no_secret); reflexivity.
  - destruct (X12_verify_failure_is_logged_once Faulty.env_no_templates Sample.smtp
                Sample.ana [] eq_refl) as (Htpl & _ & _).
    apply (Htpl Sample.enoent). reflexivity.
Defined.

(** ** sendPendingRequestEmail in every environment *)

(** X13. When the three records are found, the template loads, the two
    tokens are signed, the dates are formatted and the provider accepts the
    mail, [sendPendingRequestEmail] returns what the provider answered, and
    writes nothing to the console. *)
Theorem X13_pending_returns_provider_answer (env : Env) (t : Transporter)
    (req : Participation.t) (participant : User.t) (trip : Trip.t)
    (creator : User.t)
    (html acceptToken rejectToken startDate endDate info : string)
    (tr : list Event) :
  transporter env = Some t ->
  resolved env req participant trip creator ->
  readFile env (templatePath "pendingRequest.html") = Normal html ->
  sign env (ActionPayload (Participation.id_participation req) "accepted")
    (SECRET_KEY env) "7d" = Normal acceptToken ->
  sign env (ActionPayload (Participation.id_participation req) "rejected")
    (SECRET_KEY env) "7d" = Normal rejectToken ->
  formatDate env (Trip.start_date trip) = Normal startDate ->
  formatDate env (Trip.end_date trip) = Normal endDate ->
  deliver t (length (dispatches tr))
    (pendingRequestMail env html req participant trip creator
       startDate endDate acceptToken rejectToken) = fulfilled info ->
  snd (sendPendingRequestEmail env req tr) = Normal (Some info)
  /\ consoles (fst (sendPendingRequestEmail env req tr)) = consoles tr.
Proof.
  intros Ht Hres Htpl Ha Hr Hs He Hd.
  rewrite (sendPendingRequestEmail_run env t req Ht participant trip creator
             html acceptToken rejectToken startDate endDate tr
             Hres Htpl Ha Hr Hs He).
  cbn [fst snd]. rewrite Hd, consoles_app. simpl. now rewrite app_nil_r.
Qed.

Lemma X13_pending_returns_provider_answer_witness :
  snd (sendPendingRequestEmail Sample.env Sample.request []) = Normal (Some "250 OK")
  /\ consoles (fst (sendPendingRequestEmail Sample.env Sample.request [])) = [].
Proof.
  apply (X13_pending_returns_provider_answer Sample.env Sample.smtp Sample.request
           Sample.ana Sample.roma_new Sample.carla Sample.pendingRequest
           "accepted-5.7d.s3cr3t" "rejected-5.7d.s3cr3t" "[2024-06-01]"
           "[2024-06-08]" "250 OK" [] eq_refl
           (conj eq_refl (conj eq_refl eq_refl))
           eq_refl eq_refl eq_refl eq_refl eq_refl).
  vm_compute. reflexivity.
Defined.

(** X14. An error of [sendPendingRequestEmail] is written to the console
    exactly when it happens before the dispatch: when a lookup, the template
    load, a signature or a date format throws, nothing is dispatched and one
    error entry with the message is written; when the dispatch is rejected,
    the mail has been submitted and nothing is written. Either way the error
    is thrown to the caller. *)
Theorem X14_pending_error_logged_before_dispatch (env : Env) (t : Transporter)
    (req : Participation.t) (e : Error) (tr : list Event) :
  transporter env = Some t ->
  pending_step_throws env t (length (dispatches tr)) req e ->
  let run := sendPendingRequestEmail env req tr in
  snd run = Throw e
  /\ ((dispatches (fst run) = dispatches tr
       /\ consoles (fst run)
          = (consoles tr
             ++ [(Level_error,
                  ["❌ Error sending pending request email:"; message e])])%list)
      \/ (exists mail,
            deliver t (length (dispatches tr)) mail = rejected e
            /\ dispatches (fst run) = (dispatches tr ++ [mail])%list
            /\ consoles (fst run) = consoles tr)).
Proof.
  intros Havail H run. unfold run. split.
  - now apply (sendPendingRequestEmail_throws env t req Havail).
  - destruct H as [Hu | p Hu Ht | p tp Hu Ht Hc | p tp c Hres Htpl
                   | p tp c html Hres Htpl Ha | p tp c html a Hres Htpl Ha Hr
                   | p tp c html a r Hres Htpl Ha Hr Hs
                   | p tp c html a r s Hres Htpl Ha Hr Hs He
                   | p tp c html a r s d Hres Htpl Ha Hr Hs He Hd].
    9:{ right. eexists. split; [exact Hd |].
        rewrite (sendPendingRequestEmail_run env t req Havail p tp c html a r s d tr)
          by assumption.
        cbn [fst]. rewrite dispatches_app, consoles_app. simpl.
        rewrite app_nil_r. now split. }
    all: left; try destruct Hres as (Hu & Ht & Hc);
      unfold sendPendingRequestEmail; rewrite Havail;
      unfold try_catch, loadTemplate, jwt_sign, call, bind, console, emit,
        sendMail, ret, throw;
      rewrite ?Hu, ?Ht, ?Hc, ?Htpl, ?Ha, ?Hr, ?Hs, ?He; cbn [fst];
      rewrite ?dispatches_app, ?consoles_app; simpl; rewrite ?app_nil_r;
      split; reflexivity.
Qed.

Lemma X14_pending_error_logged_before_dispatch_witness :
  snd (sendPendingRequestEmail Faulty.env_rejecting Sample.request [])
  = Throw Sample.smtp_down
  /\ snd (sendPendingRequestEmail Faulty.env_no_secret Sample.request [])
     = Throw Sample.no_secret.
Proof.
  split.
  - apply (X14_pending_error_logged_before_dispatch Faulty.env_rejecting
             (mkTransporter (fun _ _ => rejected Sample.smtp_down))
             Sample.request Sample.smtp_down [] eq_refl).
    apply (dispatch_rejected _ _ _ _ _ Sample.ana Sample.roma_new Sample.carla
             Sample.pendingRequest "accepted-5.7d.s3cr3t" "rejected-5.7d.s3cr3t"
             "[2024-06-01]" "[2024-06-08]");
      try reflexivity. repeat split; reflexivity.
  - apply (X14_pending_error_logged_before_dispatch Faulty.env_no_secret
             Sample.smtp Sample.request Sample.no_secret [] eq_refl).
    apply (accept_sign_throws _ _ _ _ _ Sample.ana Sample.roma_new Sample.carla
             Sample.pendingRequest);
      [repeat split; reflexivity | reflexivity | reflexivity].
Defined.

Example pending_without_secret :
  sendPendingRequestEmail Faulty.env_no_secret Sample.request []
  = ([EvSign (ActionPayload 5 "accepted") "7d";
      EvConsole Level_error
        ["❌ Error sending pending request email:";
         "secretOrPrivateKey must have a value"]],
     Throw Sample.no_secret).
Proof. vm_compute. reflexivity. Qed.

(** Either nothing is dispatched, or everything before the dispatch went
    well and the one mail to the creator is submitted. *)
Lemma sendPendingRequestEmail_cases (env : Env) (req : Participation.t)
    (tr : list Event) :
  dispatches (fst (sendPendingRequestEmail env req tr)) = dispatches tr
  \/ exists t participant trip creator html acceptToken rejectToken
       startDate endDate,
       transporter env = Some t
       /\ resolved env req participant trip creator
       /\ readFile env (templatePath "pendingRequest.html") = Normal html
       /\ sign env (ActionPayload (Participation.id_participation req) "accepted")
            (SECRET_KEY env) "7d" = Normal acceptToken
       /\ sign env (ActionPayload (Participation.id_participation req) "rejected")
            (SECRET_KEY env) "7d" = Normal rejectToken
       /\ dispatches (fst (sendPendingRequestEmail env req tr))
          = (dispatches tr
             ++ [pendingRequestMail env html req participant trip creator
                   startDate endDate acceptToken rejectToken])%list.
Proof.
  destruct (transporter env) as [t|] eqn:Havail;
    [| left; now rewrite sendPendingRequestEmail_unavailable].
  destruct (selectById env (Participation.id_user req)) as [[p|]|e] eqn:Hu;
    [| left; apply sendPendingRequestEmail_no_dispatch; now left |].
  2:{ left. unfold sendPendingRequestEmail. rewrite Havail.
      unfold try_catch, call, bind, console, emit, throw. rewrite Hu.
      cbn [fst]. rewrite dispatches_app. simpl. now rewrite app_nil_r. }
  destruct (tripsById env (Participation.id_trip req)) as [[trip|]|e] eqn:Ht;
    [| left; apply sendPendingRequestEmail_no_dispatch; right; now left |].
  2:{ left. unfold sendPendingRequestEmail. rewrite Havail.
      unfold try_catch, call, bind, console, emit, throw. rewrite Hu, Ht.
      cbn [fst]. rewrite dispatches_app. simpl. now rewrite app_nil_r. }
  destruct (selectById env (Trip.id_creator trip)) as [[c|]|e] eqn:Hc;
    [| left; apply sendPendingRequestEmail_no_dispatch; right; right;
       now exists p, trip |].
  2:{ left. unfold sendPendingRequestEmail. rewrite Havail.
      unfold try_catch, call, bind, console, emit, throw. rewrite Hu, Ht, Hc.
      cbn [fst]. rewrite dispatches_app. simpl. now rewrite app_nil_r. }
  destruct (readFile env (templatePath "pendingRequest.html")) as [html|e] eqn:Htpl.
  2:{ left. unfold sendPendingRequestEmail. rewrite Havail.
      unfold try_catch, loadTemplate, call, bind, console, emit, throw.
      rewrite Hu, Ht, Hc, Htpl.
      cbn [fst]. rewrite dispatches_app. simpl. now rewrite app_nil_r. }
  destruct (sign env (ActionPayload (Participation.id_participation req) "accepted")
              (SECRET_KEY env) "7d") as [a|e] eqn:Ha.
  2:{ left. unfold sendPendingRequestEmail. rewrite Havail.
      unfold try_catch, loadTemplate, jwt_sign, call, bind, console, emit, throw.
      rewrite Hu, Ht, Hc, Htpl, Ha.
      cbn [fst]. rewrite !dispatches_app. simpl. now rewrite !app_nil_r. }
  destruct (sign env (ActionPayload (Participation.id_participation req) "rejected")
              (SECRET_KEY env) "7d") as [r|e] eqn:Hr.
  2:{ left. unfold sendPendingRequestEmail. rewrite Havail.
      unfold try_catch, loadTemplate, jwt_sign, call, bind, console, emit, throw.
      rewrite Hu, Ht, Hc, Htpl, Ha, Hr.
      cbn [fst]. rewrite !dispatches_app. simpl. now rewrite !app_nil_r. }
  destruct (formatDate env (Trip.start_date trip)) as [s|e] eqn:Hs.
  2:{ left. unfold sendPendingRequestEmail. rewrite Havail.
      unfold try_catch, loadTemplate, jwt_sign, call, bind, console, emit, throw.
      rewrite Hu, Ht, Hc, Htpl, Ha, Hr, Hs.
      cbn [fst]. rewrite !dispatches_app. simpl. now rewrite !app_nil_r. }
  destruct (formatDate env (Trip.end_date trip)) as [d|e] eqn:He.
  2:{ left. unfold sendPendingRequestEmail. rewrite Havail.
      unfold try_catch, loadTemplate, jwt_sign, call, bind, console, emit, throw.
      rewrite Hu, Ht, Hc, Htpl, Ha, Hr, Hs, He.
      cbn [fst]. rewrite !dispatches_app. simpl. now rewrite !app_nil_r. }
  right. exists t, p, trip, c, html, a, r, s, d.
  assert (Hres : resolved env req p trip c) by (repeat split; assumption).
  do 5 (split; [first [assumption | reflexivity] |]).
  rewrite (sendPendingRequestEmail_run env t req Havail p trip c html a r s d tr
             Hres Htpl Ha Hr Hs He).
  cbn [fst]. rewrite dispatches_app. reflexivity.
Qed.

(** X15. In every environment [sendPendingRequestEmail] submits at most
    one dispatch, and only after the three records were found, the template
    was read and both tokens were signed; the mail goes to the email of the
    creator of the trip, never to another address. *)
Theorem X15_pending_dispatches_once_to_creator (env : Env)
    (req : Participation.t) (tr : list Event) :
  exists mails,
    dispatches (fst (sendPendingRequestEmail env req tr))
    = (dispatches tr ++ mails)%list
    /\ length mails <= 1
    /\ forall mail,
         In mail mails ->
         exists participant trip creator,
           resolved env req participant trip creator
           /\ Mail.to mail = User.email creator
           /\ (exists html,
                 readFile env (templatePath "pendingRequest.html") = Normal html)
           /\ (exists acceptToken rejectToken,
                 sign env
                   (ActionPayload (Participation.id_participation req) "accepted")
                   (SECRET_KEY env) "7d" = Normal acceptToken
                 /\ sign env
                      (ActionPayload (Participation.id_participation req) "rejected")
                      (SECRET_KEY env) "7d" = Normal rejectToken).
Proof.
  destruct (sendPendingRequestEmail_cases env req tr)
    as [Hd | (t & p & trip & c & html & a & r & s & d
              & _ & Hres & Htpl & Ha & Hr & Hd)].
  - exists []. rewrite app_nil_r. split; [exact Hd |].
    split; [simpl; lia | intros mail []].
  - eexists. split; [exact Hd |]. split; [simpl; lia |].
    intros mail [<- | []].
    exists p, trip, c. split; [exact Hres |]. split; [reflexivity |].
    split; [now exists html | now exists a, r].
Qed.

(** X16. The two early returns of [sendPendingRequestEmail] differ: when
    the user or the trip is not found the console gets the entry
    [Missing data for email]; when the creator of the trip is not found the
    function returns without a word. In both cases no token is signed. *)
Theorem X16_pending_missing_data_log (env : Env) (t : Transporter)
    (req : Participation.t) (tr : list Event) :
  transporter env = Some t ->
  (forall participant trip,
      selectById env (Participation.id_user req) = Normal participant ->
      tripsById env (Participation.id_trip req) = Normal trip ->
      participant = None \/ trip = None ->
      sendPendingRequestEmail env req tr
      = ((tr ++ [EvConsole Level_error ["Missing data for email"]])%list,
         Normal None))
  /\ (forall participant trip,
        selectById env (Participation.id_user req) = Normal (Some participant) ->
        tripsById env (Participation.id_trip req) = Normal (Some trip) ->
        selectById env (Trip.id_creator trip) = Normal None ->
        sendPendingRequestEmail env req tr = (tr, Normal None)).
Proof.
  intros Havail. split.
  - intros p trip Hu Ht Hnone.
    unfold sendPendingRequestEmail. rewrite Havail.
    unfold try_catch, call, bind, console, emit, ret. rewrite Hu, Ht.
    destruct Hnone as [-> | ->]; [| destruct p]; reflexivity.
  - intros p trip Hu Ht Hc.
    unfold sendPendingRequestEmail. rewrite Havail.
    unfold try_catch, call, bind, console, emit, ret. now rewrite Hu, Ht, Hc.
Qed.

Lemma X16_pending_missing_data_log_witness :
  sendPendingRequestEmail Sample.env Sample.request_unknown_user []
  = ([EvConsole Level_error ["Missing data for email"]], Normal None)
  /\ sendPendingRequestEmail Faulty.env_orphan_trip Faulty.request_orphan []
     = ([], Normal None).
Proof.
  split.
  - destruct (X16_pending_missing_data_log Sample.env Sample.smtp
                Sample.request_unknown_user [] eq_refl) as [H _].
    apply (H None (Some Sample.roma_new)); [reflexivity | reflexivity | now left].
  - destruct (X16_pending_missing_data_log Faulty.env_orphan_trip Sample.smtp
                Faulty.request_orphan [] eq_refl) as [_ H].
    apply (H Sample.ana Faulty.orphan_trip); reflexivity.
Defined.

(** * The text of the mails *)

(** ** A value in the rendered text *)






(** ** Tokens and links in the mails *)




(** ** The message of a request *)



(** ** Who is left out of a trip update *)

(** C10 (as the code has it). When the transporter is there, the template
    loads and the four dates are formatted without error, a participant is
    left out only when its email is, character for character,
    [creatorEmail]: the addresses written to are exactly the emails of the
    participants that are not that string, so a participant whose email
    differs from it in any way is sent a mail, and [total] counts all such
    participants. *)
Theorem C10_creator_excluded_by_exact_email (env : Env) (t : Transporter)
    (participants : list User.t) (oldTrip updatedTrip : Trip.t)
    (creatorEmail htmlTemplate newStartDate newEndDate oldStartDate oldEndDate : string)
    (tr : list Event) (p : User.t) :
  transporter env = Some t ->
  readFile env (templatePath "datesModified.html") = Normal htmlTemplate ->
  formatDate env (Trip.start_date updatedTrip) = Normal newStartDate ->
  formatDate env (Trip.end_date updatedTrip) = Normal newEndDate ->
  formatDate env (Trip.start_date oldTrip) = Normal oldStartDate ->
  formatDate env (Trip.end_date oldTrip) = Normal oldEndDate ->
  In p participants ->
  User.email p <> creatorEmail ->
  let run :=
    sendTripUpdateNotification env participants oldTrip updatedTrip
      creatorEmail tr in
  exists mails stats,
    dispatches (fst run) = (dispatches tr ++ mails)%list
    /\ map Mail.to mails
       = map User.email
           (filter (fun q => negb (User.email q =? creatorEmail)) participants)
    /\ (forall address,
          In address (map Mail.to mails)
          <-> address <> creatorEmail
              /\ exists q, In q participants /\ User.email q = address)
    /\ In (User.email p) (map Mail.to mails)
    /\ snd run = Normal (Some stats)
    /\ Stats.total stats
       = length
           (filter (fun q => negb (User.email q =? creatorEmail)) participants).
Proof.
  intros Ht Htpl Hns Hne Hos Hoe Hin Hdiff run.
  set (recipients :=
         filter (fun q => negb (User.email q =? creatorEmail)) participants).
  assert (Hfilter : forall q,
             In q recipients <-> In q participants /\ User.email q <> creatorEmail).
  { intros q. unfold recipients. rewrite filter_In, negb_true_iff.
    now rewrite String.eqb_neq. }
  assert (Hp : In p recipients) by now apply Hfilter.
  assert (Hrec : recipients <> []) by (intros E; rewrite E in Hp; exact Hp).
  destruct (sendTripUpdateNotification_run env t oldTrip updatedTrip htmlTemplate
              newStartDate newEndDate oldStartDate oldEndDate
              Hns Hne Hos Hoe participants creatorEmail tr Ht Htpl Hrec)
    as [Hsent Hret].
  exists (map (tripUpdateMail env htmlTemplate updatedTrip newStartDate
                 newEndDate oldStartDate oldEndDate) recipients).
  eexists. split; [exact Hsent |].
  assert (Hto : map Mail.to
                  (map (tripUpdateMail env htmlTemplate updatedTrip newStartDate
                          newEndDate oldStartDate oldEndDate) recipients)
                = map User.email recipients)
    by (rewrite map_map; reflexivity).
  split; [exact Hto |]. rewrite Hto.
  split; [| split; [now apply in_map | split; [exact Hret | reflexivity]]].
  intros address. rewrite in_map_iff. split.
  - intros (q & <- & Hq). apply Hfilter in Hq as [Hq Hneq].
    split; [exact Hneq | now exists q].
  - intros (Hneq & q & Hq & <-). exists q. split; [reflexivity |].
    now apply Hfilter.
Qed.

Lemma C10_creator_excluded_by_exact_email_witness :
  let run :=
    sendTripUpdateNotification Sample.env_reliable
      [Sample.carla; Sample.carla_upper; Sample.carla_blank] Sample.roma_old
      Sample.roma_new "carla@example.com" [] in
  map Mail.to (dispatches (fst run)) = ["Carla@example.com"; " carla@example.com"]
  /\ exists stats, snd run = Normal (Some stats) /\ Stats.total stats = 2.
Proof.
  intros run.
  destruct (C10_creator_excluded_by_exact_email Sample.env_reliable Sample.reliable
              [Sample.carla; Sample.carla_upper; Sample.carla_blank]
              Sample.roma_old Sample.roma_new "carla@example.com"
              Sample.datesModified
              "[2024-06-01]" "[2024-06-08]" "[2024-05-01]" "[2024-05-08]" []
              Sample.carla_upper
              eq_refl eq_refl eq_refl eq_refl eq_refl eq_refl)
    as (mails & stats & Hsent & Hto & _ & _ & Hret & Htotal).
  - right. left. reflexivity.
  - discriminate.
  - split.
    + unfold run. rewrite Hsent. simpl dispatches. simpl app. rewrite Hto.
      vm_compute. reflexivity.
    + exists stats. split; [exact Hret |]. rewrite Htotal.
      vm_compute. reflexivity.
Defined.

(** C10 as it is stated fails: a participant whose email differs from
    [creatorEmail] only in letter case is not written to, and no total is
    returned, when a date of the trip cannot be formatted. *)
Lemma C10_counterexample :
  let run :=
    sendTripUpdateNotification Faulty.env_bad_dates
      [Sample.carla; Sample.carla_upper] Sample.roma_old Sample.roma_new
      "carla@example.com" [] in
  In Sample.carla_upper [Sample.carla; Sample.carla_upper]
  /\ User.email Sample.carla_upper <> "carla@example.com"
  /\ dispatches (fst run) = []
  /\ snd run = Normal None.
Proof.
  intros run. split; [right; left; reflexivity |].
  split; [discriminate |]. split; vm_compute; reflexivity.
Qed.

(** ** The guards on the transporter *)

(** C2 (what the code does instead). The constant [transporter] is bound
    to the object [nodemailer.createTransport] returns, whatever the
    credentials, so it is never falsy and the guards [if (!transporter)] never
    fire. In the module loaded without credentials, whose provider rejects
    every mail: [sendVerifyEmailTo] submits its mail,
    [sendTripUpdateNotification] submits one mail per recipient and returns
    a tally of failures, and [sendPendingRequestEmail] submits its mail and
    throws to its caller. *)
Theorem C2_missing_credentials_not_short_circuited :
  (forall provider pass env, transporter (module_env provider pass env) <> None)
  /\ GMAIL_USER Deployed.env_missing_credentials = None
  /\ map Mail.to
       (dispatches (fst (sendVerifyEmailTo Deployed.env_missing_credentials
                           Sample.ana [])))
     = ["ana@example.com"]
  /\ sendTripUpdateNotification Deployed.env_missing_credentials
       [Sample.carla; Sample.ana; Sample.bea] Sample.roma_old Sample.roma_new
       "carla@example.com" []
     <> ([EvConsole Level_warn
            ["⚠️ No se pueden enviar emails: transporter no disponible o sin participantes"]],
         Normal None)
  /\ map Mail.to
       (dispatches
          (fst (sendTripUpdateNotification Deployed.env_missing_credentials
                  [Sample.carla; Sample.ana; Sample.bea] Sample.roma_old
                  Sample.roma_new "carla@example.com" [])))
     = ["ana@example.com"; "bea@example.com"]
  /\ snd (sendTripUpdateNotification Deployed.env_missing_credentials
            [Sample.carla; Sample.ana; Sample.bea] Sample.roma_old
            Sample.roma_new "carla@example.com" [])
     = Normal (Some {| Stats.sent := 0; Stats.failed := 2; Stats.total := 2 |})
  /\ map Mail.to
       (dispatches (fst (sendPendingRequestEmail Deployed.env_missing_credentials
                           Sample.request [])))
     = ["carla@example.com"]
  /\ snd (sendPendingRequestEmail Deployed.env_missing_credentials
            Sample.request [])
     = Throw Deployed.missing_credentials.
Proof.
  split; [intros provider pass env; discriminate |].
  split; [reflexivity |].
  split; [vm_compute; reflexivity |].
  split; [vm_compute; discriminate |].
  repeat split; vm_compute; reflexivity.
Qed.
